(** * Robot Sensors API: relay, latest-state cache and ingress handlers

    A shallow embedding of [main.py]: the [ConnectionManager] with its two
    pools, the module-level dictionaries [last_sensor_data] and
    [last_action], the two SQLite tables, and the HTTP and WebSocket
    handlers that tie them together.

    Conventions.
    - A handler is a function from the state before to the state after,
      the list of [send_json] calls it made (in order, each tagged with its
      outcome) and its reply.  A handler runs to completion: the
      interleavings that [await] allows between handlers are not modelled.
    - Everything the handlers cannot decide themselves is read from an
      [Env]: whether [send_json] on a given socket raises, whether the
      database commit raises, and the clock readings.
    - Python dictionaries are finite maps from strings to JSON values,
      Python [int] is [Z], Python [float] is a binary64 float. *)

From Stdlib Require Import ZArith Floats Lia.
From stdpp Require Import base option list strings gmap fin_maps pretty.

Set Default Proof Using "Type".
Set Warnings "-register-all".

(** ** Python values *)

Inductive json :=
| JNull
| JBool (b : bool)
| JInt (z : Z)
| JFloat (f : float)
| JStr (s : string)
| JList (l : list json)
| JObj (m : gmap string json).

Abbreviation pydict := (gmap string json).

(** [d.update(other)]: the keys of [other] win. *)
Definition dict_update (d other : pydict) : pydict := other ∪ d.

(** [bool(d)] for a dictionary: [len(d) != 0]. *)
Definition dict_truthy (d : pydict) : bool := negb (Nat.eqb (size d) 0).

(** [bool(v)] for the values a JSON document can hold. *)
Definition py_truthy (v : json) : bool :=
  match v with
  | JNull => false
  | JBool b => b
  | JInt z => negb (z =? 0)%Z
  | JFloat f => negb (PrimFloat.eqb f 0%float)
  | JStr s => negb (Nat.eqb (String.length s) 0)
  | JList l => negb (Nat.eqb (length l) 0)
  | JObj m => dict_truthy m
  end.

(** [type(v).__name__] *)
Definition type_name (v : json) : string :=
  match v with
  | JNull => "NoneType"
  | JBool _ => "bool"
  | JInt _ => "int"
  | JFloat _ => "float"
  | JStr _ => "str"
  | JList _ => "list"
  | JObj _ => "dict"
  end.

(** ** Exceptions

    An exception is known by its class and by [str(e)].  [except
    WebSocketDisconnect] and [except json.JSONDecodeError] look at the
    class; [except Exception] and the bare [except:] catch all of them. *)

Inductive exn_class :=
| WebSocketDisconnect
| TypeError
| OtherException.

Record exn := Raise { exn_type : exn_class; str : string }.

Definition is_WebSocketDisconnect (e : exn) : bool :=
  match exn_type e with WebSocketDisconnect => true | _ => false end.

(** A computation that returns or raises. *)
Definition result (A : Type) : Type := exn + A.

Definition ret {A} (a : A) : result A := inr a.
Definition raise {A} (e : exn) : result A := inl e.
Definition bind {A B} (c : result A) (k : A → result B) : result B :=
  match c with
  | inl e => inl e
  | inr a => k a
  end.

Notation "x ←! c ; k" := (bind c (λ x, k))
  (at level 20, c at level 100, k at level 200, right associativity,
   format "x  ←!  c ;  '/' k").

(** ** Comparisons against an integer literal, [min] and [max]

    The source only ever compares a received value with the literals
    [100] and [-100].  Python compares [int] with [float] exactly; for
    a literal this small converting it to a float is exact, too. *)

Definition float_of_Z (n : Z) : float :=
  if (n <? 0)%Z
  then PrimFloat.opp (PrimFloat.of_uint63 (Uint63.of_Z (- n)))
  else PrimFloat.of_uint63 (Uint63.of_Z n).

Definition unorderable (op : string) (v : json) : exn :=
  Raise TypeError
    ("'" +:+ op +:+ "' not supported between instances of '" +:+ type_name v
         +:+ "' and 'int'").

(** [v < n] *)
Definition py_lt (v : json) (n : Z) : result bool :=
  match v with
  | JInt z => ret (z <? n)%Z
  | JBool b => ret (Z.b2z b <? n)%Z
  | JFloat f => ret (PrimFloat.ltb f (float_of_Z n))
  | _ => raise (unorderable "<" v)
  end.

(** [v > n] *)
Definition py_gt (v : json) (n : Z) : result bool :=
  match v with
  | JInt z => ret (n <? z)%Z
  | JBool b => ret (n <? Z.b2z b)%Z
  | JFloat f => ret (PrimFloat.ltb (float_of_Z n) f)
  | _ => raise (unorderable ">" v)
  end.

(** [min(n, v)]: [v] replaces [n] when [v < n]. *)
Definition py_min (n : Z) (v : json) : result json :=
  b ←! py_lt v n; ret (if b then v else JInt n).

(** [max(n, v)]: [v] replaces [n] when [v > n]. *)
Definition py_max (n : Z) (v : json) : result json :=
  b ←! py_gt v n; ret (if b then v else JInt n).

(** [max(-100, min(100, v))] on a value taken from a JSON document. *)
Definition clamp_value (v : json) : result json :=
  x ←! py_min 100 v; py_max (-100) x.

(** [max(-100, min(100, n))] on an [int]. *)
Definition clamp_int (n : Z) : Z := Z.max (-100) (Z.min 100 n).

(** [key in container] for the string [key]. *)
Definition py_contains (key : string) (container : json) : result bool :=
  match container with
  | JObj m => ret (bool_decide (is_Some (m !! key)))
  | JList l =>
      ret (existsb (λ x, match x with
                         | JStr s => bool_decide (s = key)
                         | _ => false
                         end) l)
  | JStr s => ret (bool_decide (is_Some (String.index 0 key s)))
  | _ => raise (Raise TypeError
                  ("argument of type '" +:+ type_name container
                                        +:+ "' is not iterable"))
  end.

(** [container[key]] for the string [key]. *)
Definition py_getitem (container : json) (key : string) : result json :=
  match container with
  | JObj m =>
      match m !! key with
      | Some v => ret v
      | None => raise (Raise OtherException ("'" +:+ key +:+ "'"))
      end
  | JList _ =>
      raise (Raise TypeError "list indices must be integers or slices, not str")
  | JStr _ =>
      raise (Raise TypeError "string indices must be integers, not 'str'")
  | _ => raise (Raise TypeError
                  ("'" +:+ type_name container +:+ "' object is not subscriptable"))
  end.

(** ** Data model *)

Definition WebSocket := nat.

(** A [datetime], known by its [isoformat()]. *)
Record datetime := Datetime { isoformat : string }.

Definition opt_int (o : option Z) : json :=
  match o with
  | Some z => JInt z
  | None => JNull
  end.

Module IRSensorData.
Record t := Build {
  proximity : option Z;
  remote_buttons : json;
  beacon_distance : option Z;
  beacon_heading : option Z }.

Definition dict (x : t) : pydict :=
  list_to_map [("proximity", opt_int (proximity x));
               ("remote_buttons", remote_buttons x);
               ("beacon_distance", opt_int (beacon_distance x));
               ("beacon_heading", opt_int (beacon_heading x))].
End IRSensorData.

Module RobotInfo.
Record t := Build {
  platform : string;
  python_version : string }.

Definition dict (x : t) : pydict :=
  list_to_map [("platform", JStr (platform x));
               ("python_version", JStr (python_version x))].
End RobotInfo.

Module SensorPayload.
Record t := Build {
  sample_id : Z;
  timestamp : float;
  ir_sensor : IRSensorData.t;
  robot_info : RobotInfo.t }.
End SensorPayload.

(** The body of [POST /actions/] before validation: integer motor
    values of any size, an optional [source]. *)
Module ActionPayload.
Record t := Build {
  left_motor : Z;
  right_motor : Z;
  source : option string }.

(** [Field(..., ge=-100, le=100)] on both motors. *)
Definition valid (a : t) : bool :=
  (-100 <=? left_motor a)%Z && (left_motor a <=? 100)%Z
  && (-100 <=? right_motor a)%Z && (right_motor a <=? 100)%Z.
End ActionPayload.

(** Rows of the table [sensor_data]. *)
Module SensorData.
Record t := Build {
  id : Z;
  sample_id : Z;
  timestamp : float;
  ir_sensor : pydict;
  robot_info : pydict;
  created_at : datetime }.
End SensorData.

(** Rows of the table [action_data].  A motor column holds the value the
    handler wrote; the [Integer] column hands [True], [False] and a
    float that is an integer back as that integer, which is how
    [action_response] reads a row. *)
Module ActionData.
Record t := Build {
  id : Z;
  timestamp : float;
  left_motor : json;
  right_motor : json;
  source : string;
  created_at : datetime }.

(** The row as [ActionResponse] serialises it. *)
Definition response (r : t) : pydict :=
  list_to_map [("id", JInt (id r));
               ("left_motor", left_motor r);
               ("right_motor", right_motor r);
               ("timestamp", JFloat (timestamp r));
               ("source", JStr (source r));
               ("created_at", JStr (isoformat (created_at r)))].
End ActionData.

Record Database := {
  sensor_data : list SensorData.t;
  action_data : list ActionData.t }.

Record ConnectionManager := {
  active_dashboard_connections : list WebSocket;
  active_robot_connections : list WebSocket }.

Record State := {
  last_sensor_data : pydict;
  last_action : pydict;
  manager : ConnectionManager;
  db : Database }.

(** What a handler reads from its surroundings. *)
Record Env := {
  (** [None]: [send_json] on this socket completes; [Some e]: it raises [e]. *)
  wire : WebSocket → option exn;
  (** [None]: [db.add; db.commit; db.refresh] complete; [Some e]: the
      commit raises [e] and nothing is written. *)
  commit : option exn;
  (** [time.time()] when the row is built, and again for the notification. *)
  time_time : float;
  time_time_notify : float;
  (** [datetime.utcnow()] as the column default, and as called by the handler. *)
  utcnow_default : datetime;
  utcnow : datetime }.

(** One call of [send_json], as it went. *)
Inductive event :=
| Sent (ws : WebSocket) (data : pydict)
| SendFailed (ws : WebSocket) (data : pydict).

Definition target (ev : event) : WebSocket :=
  match ev with
  | Sent ws _ | SendFailed ws _ => ws
  end.

Definition payload (ev : event) : pydict :=
  match ev with
  | Sent _ data | SendFailed _ data => data
  end.

(** The sockets a trace delivered something to, in order. *)
Definition recipients (tr : list event) : list WebSocket :=
  omap (λ ev, match ev with
              | Sent ws _ => Some ws
              | SendFailed _ _ => None
              end) tr.

(** [await websocket.send_json(data)] *)
Definition send_json (env : Env) (ws : WebSocket) (data : pydict)
  : event * option exn :=
  match wire env ws with
  | None => (Sent ws data, None)
  | Some e => (SendFailed ws data, Some e)
  end.

(** ** Module-level state *)

Definition initial_last_action : pydict :=
  list_to_map [("left_motor", JInt 0); ("right_motor", JInt 0);
               ("timestamp", JNull); ("source", JNull)].

Definition empty_database : Database :=
  {| sensor_data := []; action_data := [] |}.

(** The process as the module body leaves it, over a given database file. *)
Definition module_state (d : Database) : State :=
  {| last_sensor_data := ∅;
     last_action := initial_last_action;
     manager := {| active_dashboard_connections := [];
                   active_robot_connections := [] |};
     db := d |}.

Definition set_manager (m : ConnectionManager) (st : State) : State :=
  {| last_sensor_data := last_sensor_data st;
     last_action := last_action st;
     manager := m;
     db := db st |}.

Definition set_last_sensor_data (d : pydict) (st : State) : State :=
  {| last_sensor_data := d;
     last_action := last_action st;
     manager := manager st;
     db := db st |}.

Definition set_last_action (d : pydict) (st : State) : State :=
  {| last_sensor_data := last_sensor_data st;
     last_action := d;
     manager := manager st;
     db := db st |}.

Definition set_db (d : Database) (st : State) : State :=
  {| last_sensor_data := last_sensor_data st;
     last_action := last_action st;
     manager := manager st;
     db := d |}.

(** ** ConnectionManager *)

(** [l.remove(x)]: drops the first element equal to [x].  Both callers
    test [x in l] first, so the [ValueError] of an absent [x] cannot
    arise. *)
Fixpoint list_remove_first (x : WebSocket) (l : list WebSocket)
  : list WebSocket :=
  match l with
  | [] => []
  | y :: l' => if decide (x = y) then l' else y :: list_remove_first x l'
  end.

Definition connect_dashboard (websocket : WebSocket) (m : ConnectionManager)
  : ConnectionManager :=
  {| active_dashboard_connections :=
       active_dashboard_connections m ++ [websocket];
     active_robot_connections := active_robot_connections m |}.

Definition connect_robot (websocket : WebSocket) (m : ConnectionManager)
  : ConnectionManager :=
  {| active_dashboard_connections := active_dashboard_connections m;
     active_robot_connections := active_robot_connections m ++ [websocket] |}.

Definition disconnect_dashboard (websocket : WebSocket) (m : ConnectionManager)
  : ConnectionManager :=
  if bool_decide (websocket ∈ active_dashboard_connections m)
  then {| active_dashboard_connections :=
            list_remove_first websocket (active_dashboard_connections m);
          active_robot_connections := active_robot_connections m |}
  else m.

Definition disconnect_robot (websocket : WebSocket) (m : ConnectionManager)
  : ConnectionManager :=
  if bool_decide (websocket ∈ active_robot_connections m)
  then {| active_dashboard_connections := active_dashboard_connections m;
          active_robot_connections :=
            list_remove_first websocket (active_robot_connections m) |}
  else m.

(** The loop shared by both fan-outs,

<<
    for connection in pool:
        try:    await connection.send_json(data)
        except: disconnect(connection)
>>

    A Python [for] over a list keeps an index into the list itself, not
    into a copy: each round reads [pool[i]] from the list as it is then,
    stops when [i] is past its end, and moves on to [i + 1].  [pool_of]
    and [disconnect] select the pool; [fuel] bounds the rounds. *)
Fixpoint for_connection_in
    (pool_of : ConnectionManager → list WebSocket)
    (disconnect : WebSocket → ConnectionManager → ConnectionManager)
    (env : Env) (data : pydict)
    (fuel i : nat) (m : ConnectionManager) (tr : list event)
  : ConnectionManager * list event :=
  match fuel with
  | O => (m, tr)
  | S fuel' =>
      match pool_of m !! i with
      | None => (m, tr)
      | Some connection =>
          match send_json env connection data with
          | (ev, None) =>
              for_connection_in pool_of disconnect env data
                                fuel' (S i) m (tr ++ [ev])
          | (ev, Some _) =>
              for_connection_in pool_of disconnect env data
                                fuel' (S i) (disconnect connection m) (tr ++ [ev])
          end
      end
  end.

(** The loops below start at index [0] with one unit of fuel per
    connection; [for_connection_in_fuel] shows that this is always
    enough for the loop to end on its own. *)
Definition broadcast_sensor_data (env : Env) (data : pydict)
    (m : ConnectionManager) : ConnectionManager * list event :=
  for_connection_in active_dashboard_connections disconnect_dashboard env data
                    (length (active_dashboard_connections m)) 0 m [].

Definition send_action_to_robot (env : Env) (data : pydict)
    (m : ConnectionManager) : ConnectionManager * list event :=
  for_connection_in active_robot_connections disconnect_robot env data
                    (length (active_robot_connections m)) 0 m [].

(** ** The database *)

(** The [id] SQLite gives to the next row: one more than the largest. *)
Definition next_id {A} (id_of : A → Z) (rows : list A) : Z :=
  Z.succ (foldr (λ r acc, Z.max (id_of r) acc) 0%Z rows).

(** The order of [ORDER BY timestamp] on a REAL column: a NaN is stored
    as NULL, and NULL sorts before every number. *)
Definition is_nan (f : float) : bool := negb (PrimFloat.eqb f f).

Definition sql_le (a b : float) : bool :=
  is_nan a || (negb (is_nan b) && PrimFloat.leb a b).

(** [query.order_by(desc(timestamp)).first()]: a row with the greatest
    timestamp; among rows with the same timestamp the one inserted last
    is taken, the index on the column being walked backwards. *)
Definition latest {A} (timestamp_of : A → float) (rows : list A) : option A :=
  foldl (λ best r,
           match best with
           | None => Some r
           | Some b => if sql_le (timestamp_of b) (timestamp_of r)
                       then Some r else Some b
           end) None rows.

(** [query.filter(ActionData.id == i).first()] *)
Definition action_by_id (i : Z) (rows : list ActionData.t)
  : option ActionData.t :=
  find (λ r, bool_decide (ActionData.id r = i)) rows.

Definition add_sensor (r : SensorData.t) (d : Database) : Database :=
  {| sensor_data := sensor_data d ++ [r]; action_data := action_data d |}.

Definition add_action (r : ActionData.t) (d : Database) : Database :=
  {| sensor_data := sensor_data d; action_data := action_data d ++ [r] |}.

(** The dictionaries written into the caches. *)
Definition sensor_entry (sample_id : Z) (timestamp : float)
    (ir_sensor robot_info : pydict) (db_id : Z) (created_at : datetime)
  : pydict :=
  list_to_map [("sample_id", JInt sample_id);
               ("timestamp", JFloat timestamp);
               ("ir_sensor", JObj ir_sensor);
               ("robot_info", JObj robot_info);
               ("db_id", JInt db_id);
               ("created_at", JStr (isoformat created_at))].

Definition action_entry (r : ActionData.t) (left_motor right_motor : json)
  : pydict :=
  list_to_map [("id", JInt (ActionData.id r));
               ("left_motor", left_motor);
               ("right_motor", right_motor);
               ("timestamp", JFloat (ActionData.timestamp r));
               ("source", JStr (ActionData.source r));
               ("created_at", JStr (isoformat (ActionData.created_at r)))].

Definition sensor_entry_of_row (r : SensorData.t) : pydict :=
  sensor_entry (SensorData.sample_id r) (SensorData.timestamp r)
               (SensorData.ir_sensor r) (SensorData.robot_info r)
               (SensorData.id r) (SensorData.created_at r).

Definition action_entry_of_row (r : ActionData.t) : pydict :=
  action_entry r (ActionData.left_motor r) (ActionData.right_motor r).

(** ** HTTP handlers *)

Inductive response :=
| OK (body : pydict)
| HTTPException (status_code : Z) (detail : string)
| RequestValidationError
| InternalServerError.

(** The integer a float stands for, if it is one. *)
Definition float_to_Z (f : float) : option Z :=
  match Prim2SF f with
  | S754_zero _ => Some 0%Z
  | S754_finite s m e =>
      let magnitude :=
        if (0 <=? e)%Z then Some (Z.pos m * 2 ^ e)%Z
        else if (Z.pos m mod 2 ^ (- e) =? 0)%Z
             then Some (Z.pos m / 2 ^ (- e))%Z
             else None in
      (λ z, if s then (- z)%Z else z) <$> magnitude
  | _ => None
  end.

(** What an [int] field of a response model makes of a motor column:
    an integer passes, [true] and [false] come back from the Integer
    column as 1 and 0, a float passes when it has no fractional part, and
    anything else is refused. *)
Definition integer_field (v : json) : option Z :=
  match v with
  | JInt z => Some z
  | JBool b => Some (Z.b2z b)
  | JFloat f => float_to_Z f
  | _ => None
  end.

(** [response_model=ActionResponse] on a row the handler returns.  The
    validation runs after the handler has returned, outside its [try]:
    a row that does not fit makes the server answer 500. *)
Definition action_response (r : ActionData.t) : response :=
  match integer_field (ActionData.left_motor r),
        integer_field (ActionData.right_motor r) with
  | Some left_motor, Some right_motor =>
      OK (ActionData.response
            (ActionData.Build (ActionData.id r) (ActionData.timestamp r)
                              (JInt left_motor) (JInt right_motor)
                              (ActionData.source r) (ActionData.created_at r)))
  | _, _ => InternalServerError
  end.

(** [POST /sensors/] *)
Definition store_sensor_data (payload : SensorPayload.t) (env : Env)
    (st : State) : State * list event * response :=
  match commit env with
  | Some e =>
      (st, [], HTTPException 500 ("Error storing sensor data: " +:+ str e))
  | None =>
      let sensor_data :=
        SensorData.Build
          (next_id SensorData.id (sensor_data (db st)))
          (SensorPayload.sample_id payload)
          (SensorPayload.timestamp payload)
          (IRSensorData.dict (SensorPayload.ir_sensor payload))
          (RobotInfo.dict (SensorPayload.robot_info payload))
          (utcnow_default env) in
      let st := set_db (add_sensor sensor_data (db st)) st in
      let st :=
        set_last_sensor_data
          (dict_update (last_sensor_data st)
             (sensor_entry (SensorPayload.sample_id payload)
                           (SensorPayload.timestamp payload)
                           (IRSensorData.dict (SensorPayload.ir_sensor payload))
                           (RobotInfo.dict (SensorPayload.robot_info payload))
                           (SensorData.id sensor_data)
                           (utcnow env))) st in
      let '(m, tr) := broadcast_sensor_data env (last_sensor_data st) (manager st) in
      (set_manager m st, tr,
       OK (list_to_map
             [("message", JStr "Sensor data stored successfully");
              ("id", JInt (SensorData.id sensor_data));
              ("sample_id", JInt (SensorData.sample_id sensor_data))]))
  end.

(** [GET /sensors/latest] *)
Definition get_latest_sensor_data (st : State) : State * response :=
  let st :=
    if dict_truthy (last_sensor_data st) then st
    else match latest SensorData.timestamp (sensor_data (db st)) with
         | Some latest =>
             set_last_sensor_data
               (dict_update (last_sensor_data st) (sensor_entry_of_row latest)) st
         | None => st
         end in
  if dict_truthy (last_sensor_data st)
  then (st, OK (last_sensor_data st))
  else (st, HTTPException 404 "No sensor data available").

(** [POST /actions/].  FastAPI validates the body against [ActionPayload]
    before the handler runs and answers 422 when it does not fit. *)
Definition create_action (action : ActionPayload.t) (env : Env) (st : State)
  : State * list event * response :=
  if negb (ActionPayload.valid action) then (st, [], RequestValidationError)
  else
    let left_motor := clamp_int (ActionPayload.left_motor action) in
    let right_motor := clamp_int (ActionPayload.right_motor action) in
    match commit env with
    | Some e =>
        (st, [], HTTPException 500 ("Error storing action: " +:+ str e))
    | None =>
        let action_record :=
          ActionData.Build
            (next_id ActionData.id (action_data (db st)))
            (time_time env)
            (JInt left_motor) (JInt right_motor)
            (match ActionPayload.source action with
             | Some s => if Nat.eqb (String.length s) 0 then "api" else s
             | None => "api"
             end)
            (utcnow_default env) in
        let st := set_db (add_action action_record (db st)) st in
        let st :=
          set_last_action
            (dict_update (last_action st)
               (action_entry action_record (JInt left_motor) (JInt right_motor)))
            st in
        let '(m, tr_robots) :=
          send_action_to_robot env
            (list_to_map
               [("action", JStr "motor_control");
                ("left_motor", JInt left_motor);
                ("right_motor", JInt right_motor);
                ("timestamp", JFloat (ActionData.timestamp action_record));
                ("source", JStr (ActionData.source action_record))])
            (manager st) in
        let '(m, tr_dashboards) :=
          broadcast_sensor_data env
            (list_to_map
               [("type", JStr "action_update");
                ("action", JObj (last_action st));
                ("timestamp", JFloat (time_time_notify env))])
            m in
        (set_manager m st, tr_robots ++ tr_dashboards,
         OK (ActionData.response action_record))
    end.

(** [GET /actions/latest] *)
Definition get_latest_action (st : State) : State * response :=
  let cached :=
    match last_action st !! "id" with
    | Some (JInt i) =>
        if py_truthy (JInt i) then action_by_id i (action_data (db st)) else None
    | _ => None
    end in
  match cached with
  | Some action_record => (st, action_response action_record)
  | None =>
      match latest ActionData.timestamp (action_data (db st)) with
      | None => (st, HTTPException 404 "No actions available")
      | Some action_record =>
          (set_last_action
             (dict_update (last_action st) (action_entry_of_row action_record)) st,
           action_response action_record)
      end
  end.

(** ** WebSocket handlers *)

(** What [json.loads] makes of a received text frame. *)
Inductive text :=
| Malformed            (** [json.loads] raises [JSONDecodeError] *)
| Json (v : json)      (** [json.loads] returns [v] *)
| Unloadable (e : exn). (** [json.loads] raises another exception *)

(** How a block of statements ended. *)
Inductive completion :=
| Normal
| Raised (e : exn).

Definition completion_of (r : option exn) : completion :=
  match r with
  | None => Normal
  | Some e => Raised e
  end.

Definition error_payload (message : string) : pydict :=
  {[ "error" := JStr message ]}.

(** [/ws/dashboard] up to its receive loop: register, then send the
    current data if there is any; a failing send is passed over. *)
Definition dashboard_websocket (websocket : WebSocket) (env : Env) (st : State)
  : State * list event :=
  let st := set_manager (connect_dashboard websocket (manager st)) st in
  if dict_truthy (last_sensor_data st)
  then
    let '(ev, _) :=
      send_json env websocket
        (list_to_map [("type", JStr "initial_data");
                      ("sensors", JObj (last_sensor_data st));
                      ("last_action", JObj (last_action st))]) in
    (st, [ev])
  else (st, []).

(** [receive_text] raises [WebSocketDisconnect] in the dashboard loop. *)
Definition dashboard_disconnected (websocket : WebSocket) (st : State) : State :=
  set_manager (disconnect_dashboard websocket (manager st)) st.

(** The checks of the robot handler up to the database block.  [None]
    stands for the [Invalid action format] branch. *)
Definition read_action (action_data : json) : result (option (json * json)) :=
  has_left ←! py_contains "left_motor" action_data;
  if negb has_left then ret None
  else
    has_right ←! py_contains "right_motor" action_data;
    if negb has_right then ret None
    else
      l ←! py_getitem action_data "left_motor";
      left_motor ←! clamp_value l;
      r ←! py_getitem action_data "right_motor";
      right_motor ←! clamp_value r;
      ret (Some (left_motor, right_motor)).

(** The inner [try ... except Exception ... finally] of the robot
    handler: store the row, update [last_action], acknowledge, notify the
    dashboards.  Whatever is raised on the way is answered with a
    [Database error] payload; if that send raises too, the block raises. *)
Definition store_action (websocket : WebSocket) (left_motor right_motor : json)
    (env : Env) (st : State) : State * list event * completion :=
  match commit env with
  | Some e =>
      let '(ev, r) :=
        send_json env websocket (error_payload ("Database error: " +:+ str e)) in
      (st, [ev], completion_of r)
  | None =>
      let action_record :=
        ActionData.Build
          (next_id ActionData.id (action_data (db st)))
          (time_time env) left_motor right_motor "websocket"
          (utcnow_default env) in
      let st := set_db (add_action action_record (db st)) st in
      let st :=
        set_last_action
          (dict_update (last_action st)
             (action_entry action_record left_motor right_motor)) st in
      match send_json env websocket
              (list_to_map
                 [("status", JStr "action_received");
                  ("left_motor", left_motor);
                  ("right_motor", right_motor);
                  ("timestamp", JFloat (ActionData.timestamp action_record));
                  ("id", JInt (ActionData.id action_record))]) with
      | (ev, Some e) =>
          let '(ev', r) :=
            send_json env websocket
                      (error_payload ("Database error: " +:+ str e)) in
          (st, [ev; ev'], completion_of r)
      | (ev, None) =>
          let '(m, tr) :=
            broadcast_sensor_data env
              (list_to_map
                 [("type", JStr "action_update");
                  ("action", JObj (last_action st));
                  ("timestamp", JFloat (time_time_notify env))])
              (manager st) in
          (set_manager m st, ev :: tr, Normal)
      end
  end.

(** The body of the receive loop of [/ws/robot] for one text frame: the
    outer [try] with its two [except] clauses. *)
Definition on_text (websocket : WebSocket) (data : text) (env : Env)
    (st : State) : State * list event * completion :=
  match data with
  | Malformed =>
      let '(ev, r) := send_json env websocket (error_payload "Invalid JSON") in
      (st, [ev], completion_of r)
  | Json action_data =>
      let '(st, tr, c) :=
        match read_action action_data with
        | inl e => (st, [], Raised e)
        | inr None =>
            let '(ev, r) :=
              send_json env websocket (error_payload "Invalid action format") in
            (st, [ev], completion_of r)
        | inr (Some (left_motor, right_motor)) =>
            store_action websocket left_motor right_motor env st
        end in
      match c with
      | Normal => (st, tr, Normal)
      | Raised e =>
          let '(ev, r) := send_json env websocket (error_payload (str e)) in
          (st, tr ++ [ev], completion_of r)
      end
  | Unloadable e =>
      let '(ev, r) := send_json env websocket (error_payload (str e)) in
      (st, [ev], completion_of r)
  end.

(** Where the receive loop stands after a frame. *)
Inductive outcome :=
| Continue             (** back in [receive_text] *)
| Closed               (** [WebSocketDisconnect] caught, socket unregistered *)
| Escaped (e : exn).   (** another exception left the handler *)

Definition robot_receive (websocket : WebSocket) (data : text) (env : Env)
    (st : State) : State * list event * outcome :=
  let '(st, tr, c) := on_text websocket data env st in
  match c with
  | Normal => (st, tr, Continue)
  | Raised e =>
      if is_WebSocketDisconnect e
      then (set_manager (disconnect_robot websocket (manager st)) st, tr, Closed)
      else (st, tr, Escaped e)
  end.

(** [receive_text] raises [WebSocketDisconnect] in the robot loop. *)
Definition robot_disconnected (websocket : WebSocket) (st : State) : State :=
  set_manager (disconnect_robot websocket (manager st)) st.

(** The receive loop over the frames that arrive, each with the
    surroundings it is handled in. *)
Fixpoint receive_loop (websocket : WebSocket) (inbox : list (text * Env))
    (st : State) : State * list event * outcome :=
  match inbox with
  | [] => (st, [], Continue)
  | (data, env) :: inbox' =>
      match robot_receive websocket data env st with
      | (st', tr, Continue) =>
          let '(st'', tr', o) := receive_loop websocket inbox' st' in
          (st'', tr ++ tr', o)
      | stopped => stopped
      end
  end.

(** [/ws/robot] *)
Definition robot_websocket (websocket : WebSocket) (inbox : list (text * Env))
    (st : State) : State * list event * outcome :=
  receive_loop websocket inbox
               (set_manager (connect_robot websocket (manager st)) st).

(** ** Startup *)

Definition startup_event (st : State) : State :=
  let st :=
    match latest SensorData.timestamp (sensor_data (db st)) with
    | Some latest_sensor =>
        set_last_sensor_data
          (dict_update (last_sensor_data st) (sensor_entry_of_row latest_sensor))
          st
    | None => st
    end in
  match latest ActionData.timestamp (action_data (db st)) with
  | Some latest_action =>
      set_last_action
        (dict_update (last_action st) (action_entry_of_row latest_action)) st
  | None => st
  end.

(** A process started over the database file [d]. *)
Definition boot (d : Database) : State := startup_event (module_state d).

(** ** The server as a transition system *)

Inductive request :=
| POST_sensors (payload : SensorPayload.t)
| GET_sensors_latest
| POST_actions (action : ActionPayload.t)
| GET_actions_latest
| WS_dashboard (websocket : WebSocket)
| WS_dashboard_closed (websocket : WebSocket)
| WS_robot (websocket : WebSocket)
| WS_robot_text (websocket : WebSocket) (data : text)
| WS_robot_closed (websocket : WebSocket)
| Process_restart.

Definition handle (rq : request) (env : Env) (st : State) : State :=
  match rq with
  | POST_sensors payload => (store_sensor_data payload env st).1.1
  | GET_sensors_latest => (get_latest_sensor_data st).1
  | POST_actions action => (create_action action env st).1.1
  | GET_actions_latest => (get_latest_action st).1
  | WS_dashboard websocket => (dashboard_websocket websocket env st).1
  | WS_dashboard_closed websocket => dashboard_disconnected websocket st
  | WS_robot websocket =>
      set_manager (connect_robot websocket (manager st)) st
  | WS_robot_text websocket data => (robot_receive websocket data env st).1.1
  | WS_robot_closed websocket => robot_disconnected websocket st
  | Process_restart => boot (db st)
  end.

(** The states a server can be in: started over a fresh database file,
    then serving requests and being restarted over the same file. *)
Inductive reachable : State → Prop :=
| reachable_boot : reachable (boot empty_database)
| reachable_handle rq env st :
    reachable st → reachable (handle rq env st).


(** ** Vocabulary of the properties *)

(** The values [min] and [max] can compare with an [int]. *)
Definition numeric (v : json) : bool :=
  match v with
  | JBool _ | JInt _ | JFloat _ => true
  | _ => false
  end.

(** A number within [[-100, 100]]. *)
Definition setpoint (v : json) : Prop :=
  match v with
  | JInt z => (-100 ≤ z ≤ 100)%Z
  | JBool _ => True
  | JFloat f =>
      PrimFloat.ltb (-100)%float f = true ∧ PrimFloat.ltb f 100%float = true
  | _ => False
  end.

(** An [int] within [[-100, 100]]. *)
Definition integer_setpoint (v : json) : Prop :=
  ∃ z, v = JInt z ∧ (-100 ≤ z ≤ 100)%Z.

(** Both motor entries of [last_action] satisfy [P]. *)
Definition cached_setpoints (P : json → Prop) (st : State) : Prop :=
  ∃ l r, last_action st !! "left_motor" = Some l
         ∧ last_action st !! "right_motor" = Some r
         ∧ P l ∧ P r.

Definition stored_setpoints (P : json → Prop) (r : ActionData.t) : Prop :=
  P (ActionData.left_motor r) ∧ P (ActionData.right_motor r).

(** Every payload of a trace is an [{"error": ...}] sent to [ws]. *)
Definition only_errors_to (ws : WebSocket) (tr : list event) : Prop :=
  Forall (λ ev, target ev = ws
                ∧ ∃ message, payload ev = {[ "error" := JStr message ]}) tr.

(** [POST /actions/] took the command in with [left_motor = l]. *)
Definition ingested_left (action : ActionPayload.t) (l : Z) (env : Env)
    (st : State) : Prop :=
  ∃ body, (create_action action env st).2 = OK body
          ∧ last_action (create_action action env st).1.1 !! "left_motor"
            = Some (JInt l).

(** ** Surroundings and states to run the handlers on *)

Definition socket_closed : exn := Raise OtherException "socket closed".
Definition disk_full : exn := Raise OtherException "disk full".

(** Sends to the sockets in [dead] raise; the commit goes as [c] says. *)
Definition sample_env (dead : list WebSocket) (c : option exn) : Env :=
  {| wire := λ ws, if bool_decide (ws ∈ dead) then Some socket_closed else None;
     commit := c;
     time_time := 1700000000.25%float;
     time_time_notify := 1700000000.5%float;
     utcnow_default := Datetime "2024-01-01T00:00:00";
     utcnow := Datetime "2024-01-01T00:00:01" |}.

Definition with_pools (dashboards robots : list WebSocket) (st : State) : State :=
  set_manager {| active_dashboard_connections := dashboards;
                 active_robot_connections := robots |} st.

Definition sample_payload (n : Z) (t : float) : SensorPayload.t :=
  SensorPayload.Build n t
    (IRSensorData.Build (Some 50%Z) JNull None None)
    (RobotInfo.Build "EV3" "ev3dev2").

(** The document [{"left_motor": l, "right_motor": r}] as [json.loads]
    returns it. *)
Definition motor_command (l r : json) : json :=
  JObj (list_to_map [("left_motor", l); ("right_motor", r)]).

Definition sample_notice : pydict := {[ "type" := JStr "ping" ]}.

(** A fresh server that has taken in one telemetry snapshot. *)
Definition after_one_snapshot : State :=
  handle (POST_sensors (sample_payload 1 10%float)) (sample_env [] None)
         (boot empty_database).

(** A fresh server whose robot socket [7] has sent a fractional setpoint. *)
Definition after_fraction : State :=
  handle (WS_robot_text 7 (Json (motor_command (JFloat 50.5) (JInt 0))))
         (sample_env [] None) (boot empty_database).

(** The two pools by role, as the handlers address them. *)
Inductive role := dashboard | robot.

Definition pool (r : role) (m : ConnectionManager) : list WebSocket :=
  match r with
  | dashboard => active_dashboard_connections m
  | robot => active_robot_connections m
  end.

Definition unregister (r : role) (ws : WebSocket) (m : ConnectionManager)
  : ConnectionManager :=
  match r with
  | dashboard => disconnect_dashboard ws m
  | robot => disconnect_robot ws m
  end.

Definition three_dashboards : ConnectionManager :=
  {| active_dashboard_connections := [1; 2; 3];
     active_robot_connections := [] |}.

(** ** Vocabulary of the invariants *)

(** The part of the state that outlives a connection: both caches and
    the database. *)
Definition core (st : State) : pydict * pydict * Database :=
  (last_sensor_data st, last_action st, db st).

(** The rows the three ingress paths build. *)
Definition websocket_row (left_motor right_motor : json) (env : Env) (st : State)
  : ActionData.t :=
  ActionData.Build (next_id ActionData.id (action_data (db st)))
                   (time_time env) left_motor right_motor "websocket"
                   (utcnow_default env).

Definition api_row (action : ActionPayload.t) (env : Env) (st : State)
  : ActionData.t :=
  ActionData.Build
    (next_id ActionData.id (action_data (db st)))
    (time_time env)
    (JInt (clamp_int (ActionPayload.left_motor action)))
    (JInt (clamp_int (ActionPayload.right_motor action)))
    (match ActionPayload.source action with
     | Some s => if Nat.eqb (String.length s) 0 then "api" else s
     | None => "api"
     end)
    (utcnow_default env).

Definition sensor_row (payload : SensorPayload.t) (env : Env) (st : State)
  : SensorData.t :=
  SensorData.Build
    (next_id SensorData.id (sensor_data (db st)))
    (SensorPayload.sample_id payload)
    (SensorPayload.timestamp payload)
    (IRSensorData.dict (SensorPayload.ir_sensor payload))
    (RobotInfo.dict (SensorPayload.robot_info payload))
    (utcnow_default env).

(** The snapshot [POST /sensors/] puts into the cache. *)
Definition snapshot (payload : SensorPayload.t) (env : Env) (st : State)
  : pydict :=
  sensor_entry (SensorPayload.sample_id payload)
               (SensorPayload.timestamp payload)
               (IRSensorData.dict (SensorPayload.ir_sensor payload))
               (RobotInfo.dict (SensorPayload.robot_info payload))
               (next_id SensorData.id (sensor_data (db st)))
               (utcnow env).

(** What a request can do to the caches and the database. *)
Inductive effect (st st' : State) : Prop :=
| effect_none :
    core st' = core st → effect st st'
| effect_telemetry_accepted payload env :
    core st' = (dict_update (last_sensor_data st) (snapshot payload env st),
                last_action st,
                add_sensor (sensor_row payload env st) (db st)) →
    effect st st'
| effect_telemetry_reloaded row :
    row ∈ sensor_data (db st) →
    core st' = (dict_update (last_sensor_data st) (sensor_entry_of_row row),
                last_action st, db st) →
    effect st st'
| effect_command_accepted row :
    stored_setpoints setpoint row →
    core st' = (last_sensor_data st,
                dict_update (last_action st) (action_entry_of_row row),
                add_action row (db st)) →
    effect st st'
| effect_command_reloaded row :
    row ∈ action_data (db st) →
    core st' = (last_sensor_data st,
                dict_update (last_action st) (action_entry_of_row row),
                db st) →
    effect st st'
| effect_restart :
    st' = boot (db st) → effect st st'.

(** [last_sensor_data] is empty or holds exactly one snapshot. *)
Definition sensor_shaped (d : pydict) : Prop :=
  d = ∅ ∨ ∃ sample_id timestamp ir_sensor robot_info db_id created_at,
            d = sensor_entry sample_id timestamp ir_sensor robot_info
                             db_id created_at.

Record consistent (st : State) : Prop := {
  consistent_shape : sensor_shaped (last_sensor_data st);
  consistent_rows : Forall (stored_setpoints setpoint) (action_data (db st));
  consistent_cache : cached_setpoints setpoint st;
  consistent_default :
    action_data (db st) = [] → last_action st = initial_last_action;
  consistent_truthy :
    sensor_data (db st) ≠ [] → dict_truthy (last_sensor_data st) = true }.

(** ** Further endpoints and vocabulary *)

(** [GET /actions/{action_id}], for an id that SQLite can take as a
    parameter (a signed 64-bit integer). *)
Definition get_action_by_id (action_id : Z) (st : State) : response :=
  match action_by_id action_id (action_data (db st)) with
  | Some action_record => action_response action_record
  | None =>
      HTTPException 404
        ("Action with ID " +:+ pretty action_id +:+ " not found")
  end.

(** [l.remove(x)] as Python has it: the first element equal to [x] goes,
    and [ValueError] is raised when there is none. *)
Fixpoint list_remove (x : WebSocket) (l : list WebSocket)
  : result (list WebSocket) :=
  match l with
  | [] => raise (Raise OtherException "list.remove(x): x not in list")
  | y :: l' =>
      if decide (x = y) then ret l'
      else l'' ←! list_remove x l'; ret (y :: l'')
  end.

(** [disconnect_dashboard] and [disconnect_robot] with the exception of
    [remove] kept in sight. *)
Definition disconnect_dashboard_raising (websocket : WebSocket)
    (m : ConnectionManager) : result ConnectionManager :=
  if bool_decide (websocket ∈ active_dashboard_connections m)
  then l ←! list_remove websocket (active_dashboard_connections m);
       ret {| active_dashboard_connections := l;
              active_robot_connections := active_robot_connections m |}
  else ret m.

Definition disconnect_robot_raising (websocket : WebSocket)
    (m : ConnectionManager) : result ConnectionManager :=
  if bool_decide (websocket ∈ active_robot_connections m)
  then l ←! list_remove websocket (active_robot_connections m);
       ret {| active_dashboard_connections := active_dashboard_connections m;
              active_robot_connections := l |}
  else ret m.

Definition unregister_raising (r : role) (ws : WebSocket)
    (m : ConnectionManager) : result ConnectionManager :=
  match r with
  | dashboard => disconnect_dashboard_raising ws m
  | robot => disconnect_robot_raising ws m
  end.

(** The signed 64-bit integers. *)
Definition int64 (z : Z) : Prop := (- 2 ^ 63 ≤ z < 2 ^ 63)%Z.

(** Registration by role, the counterpart of [unregister]. *)
Definition register (r : role) (ws : WebSocket) (m : ConnectionManager)
  : ConnectionManager :=
  match r with
  | dashboard => connect_dashboard ws m
  | robot => connect_robot ws m
  end.

(** The keys of a telemetry snapshot. *)
Definition sensor_keys : gset string :=
  {[ "sample_id"; "timestamp"; "ir_sensor"; "robot_info"; "db_id"; "created_at" ]}.

(** The payloads the handlers build. *)
Definition motor_control (r : ActionData.t) : pydict :=
  list_to_map [("action", JStr "motor_control");
               ("left_motor", ActionData.left_motor r);
               ("right_motor", ActionData.right_motor r);
               ("timestamp", JFloat (ActionData.timestamp r));
               ("source", JStr (ActionData.source r))].

Definition action_update (action : pydict) (timestamp : float) : pydict :=
  list_to_map [("type", JStr "action_update");
               ("action", JObj action);
               ("timestamp", JFloat timestamp)].

Definition action_received (r : ActionData.t) : pydict :=
  list_to_map [("status", JStr "action_received");
               ("left_motor", ActionData.left_motor r);
               ("right_motor", ActionData.right_motor r);
               ("timestamp", JFloat (ActionData.timestamp r));
               ("id", JInt (ActionData.id r))].

(** A fresh server after [POST /actions/] with 80 and -80. *)
Definition after_command : State :=
  handle (POST_actions (ActionPayload.Build 80 (-80) (Some "manual")))
         (sample_env [] None) (boot empty_database).

(** ... and after a second [POST /actions/], with 10 and 20. *)
Definition after_two_commands : State :=
  handle (POST_actions (ActionPayload.Build 10 20 (Some "manual")))
         (sample_env [] None) after_command.

(** [sql_le] on the values the floats stand for, where the comparisons
    are defined by cases. *)
Definition spec_nan (x : spec_float) : bool :=
  match x with S754_nan => true | _ => false end.

Definition spec_le (x y : spec_float) : bool :=
  spec_nan x || (negb (spec_nan y) && SFleb x y).

(** A database file with three telemetry rows and two commands, the
    greatest timestamps neither first nor last. *)
Definition sample_database : Database :=
  {| sensor_data :=
       [SensorData.Build 1 11 1%float ∅ ∅ (Datetime "2024-01-01T00:00:01");
        SensorData.Build 2 12 3%float ∅ ∅ (Datetime "2024-01-01T00:00:03");
        SensorData.Build 3 13 2%float ∅ ∅ (Datetime "2024-01-01T00:00:02")];
     action_data :=
       [ActionData.Build 1 5%float (JInt 10) (JInt 20) "api"
                         (Datetime "2024-01-01T00:00:05");
        ActionData.Build 2 4%float (JInt 30) (JInt 40) "websocket"
                         (Datetime "2024-01-01T00:00:04")] |}.

(** Sends raise [WebSocketDisconnect] on the sockets in [gone]. *)
Definition hangup_env (gone : list WebSocket) : Env :=
  {| wire := λ ws, if bool_decide (ws ∈ gone)
                   then Some (Raise WebSocketDisconnect "") else None;
     commit := None;
     time_time := 1700000000.25%float;
     time_time_notify := 1700000000.5%float;
     utcnow_default := Datetime "2024-01-01T00:00:00";
     utcnow := Datetime "2024-01-01T00:00:01" |}.

(** The fan-out of a role: [broadcast_sensor_data] over the dashboards,
    [send_action_to_robot] over the robots. *)
Definition fan_out (r : role) (env : Env) (data : pydict)
    (m : ConnectionManager) : ConnectionManager * list event :=
  match r with
  | dashboard => broadcast_sensor_data env data m
  | robot => send_action_to_robot env data m
  end.

Definition other (r : role) : role :=
  match r with
  | dashboard => robot
  | robot => dashboard
  end.

(** When the action table has rows, [last_action] carries the id of one
    of them. *)
Definition cache_backed (st : State) : Prop :=
  action_data (db st) ≠ [] →
  ∃ r, r ∈ action_data (db st)
       ∧ last_action st !! "id" = Some (JInt (ActionData.id r)).

(** * Proofs *)

(** ** Removing from a pool *)

Lemma list_remove_first_absent x l : x ∉ l → list_remove_first x l = l.
Proof.
  induction l as [|y l IH]; [done|].
  intros Hx. apply not_elem_of_cons in Hx as [Hne Hx]. simpl.
  destruct (decide (x = y)); [done|]. by rewrite IH.
Qed.

Lemma list_remove_first_length x l :
  length (list_remove_first x l) ≤ length l.
Proof.
  induction l as [|y l IH]; simpl; [lia|].
  destruct (decide (x = y)); simpl; lia.
Qed.

Lemma list_remove_first_middle x pre post :
  x ∉ pre → list_remove_first x (pre ++ x :: post) = pre ++ post.
Proof.
  induction pre as [|y pre IH]; simpl; intros Hx.
  - by rewrite decide_True.
  - apply not_elem_of_cons in Hx as [Hne Hx].
    rewrite decide_False by done. by rewrite IH.
Qed.

(** ** The fan-out loop *)

Section fan_out.
Variable pool_of : ConnectionManager → list WebSocket.
Variable disconnect : WebSocket → ConnectionManager → ConnectionManager.
Hypothesis pool_of_disconnect : ∀ c m,
  pool_of (disconnect c m)
  = if bool_decide (c ∈ pool_of m) then list_remove_first c (pool_of m)
    else pool_of m.
Variable env : Env.
Variable data : pydict.

Local Abbreviation loop := (for_connection_in pool_of disconnect env data).

Lemma disconnect_length c m :
  length (pool_of (disconnect c m)) ≤ length (pool_of m).
Proof using pool_of_disconnect.
  rewrite pool_of_disconnect. case_bool_decide; [|done].
  apply list_remove_first_length.
Qed.

(** Past the end of the pool the loop stops, whatever fuel is left. *)
Lemma loop_past_end fuel i m tr :
  length (pool_of m) ≤ i → loop fuel i m tr = (m, tr).
Proof.
  intros Hi. destruct fuel; [done|]. simpl.
  by rewrite lookup_ge_None_2.
Qed.

(** One unit of fuel per connection not yet visited is enough: more
    fuel does not change the result, so the loop never stops for want
    of fuel. *)
Lemma for_connection_in_fuel fuel fuel' i m tr :
  length (pool_of m) - i ≤ fuel → fuel ≤ fuel' →
  loop fuel i m tr = loop fuel' i m tr.
Proof using pool_of_disconnect.
  revert fuel' i m tr.
  induction fuel as [|fuel IH]; intros fuel' i m tr Hlen Hle.
  - rewrite !loop_past_end by lia. done.
  - destruct fuel' as [|fuel']; [lia|]. simpl.
    destruct (pool_of m !! i) as [c|]; [|done].
    destruct (send_json env c data) as [ev [e|]].
    + apply IH; [|lia]. pose proof (disconnect_length c m). lia.
    + apply IH; lia.
Qed.

(** A run of connections whose sends complete is visited one by one. *)
Lemma loop_live_run k : ∀ fuel i m tr,
  i + k ≤ length (pool_of m) → k ≤ fuel →
  (∀ c, c ∈ take k (drop i (pool_of m)) → wire env c = None) →
  loop fuel i m tr
  = loop (fuel - k) (i + k) m
         (tr ++ map (λ c, Sent c data) (take k (drop i (pool_of m)))).
Proof.
  clear pool_of_disconnect.
  induction k as [|k IH]; intros fuel i m tr Hlen Hfuel Hlive.
  - rewrite Nat.add_0_r, Nat.sub_0_r. simpl. by rewrite app_nil_r.
  - destruct fuel as [|fuel]; [lia|].
    destruct (pool_of m !! i) as [c|] eqn:Hc;
      [|apply lookup_ge_None_1 in Hc; lia].
    rewrite (drop_S _ c) in * by done. simpl in Hlive |- *. rewrite Hc.
    unfold send_json. rewrite Hlive by set_solver.
    rewrite IH; [|lia|lia|].
    + rewrite <- app_assoc. simpl. f_equal; lia.
    + intros c' Hc'. apply Hlive. set_solver.
Qed.

Lemma loop_all_live fuel i m tr :
  length (pool_of m) - i ≤ fuel →
  (∀ c, c ∈ drop i (pool_of m) → wire env c = None) →
  loop fuel i m tr = (m, tr ++ map (λ c, Sent c data) (drop i (pool_of m))).
Proof.
  intros Hfuel Hlive.
  destruct (decide (i ≤ length (pool_of m))) as [Hi|Hi].
  - rewrite (loop_live_run (length (pool_of m) - i)); [|lia|lia|].
    + rewrite loop_past_end by lia.
      by rewrite take_ge by (rewrite length_drop; lia).
    + intros c Hc. apply Hlive.
      by rewrite take_ge in Hc by (rewrite length_drop; lia).
  - rewrite loop_past_end by lia.
    rewrite drop_ge by lia. simpl. by rewrite app_nil_r.
Qed.

(** One dead connection in a pool without repetitions: the connections
    before it are served, it is removed, the connection right after it
    is passed over, and the rest are served. *)
Lemma loop_one_dead m pre c post e :
  pool_of m = pre ++ c :: post →
  NoDup (pool_of m) →
  wire env c = Some e →
  (∀ x, x ∈ pre ++ post → wire env x = None) →
  ∃ m', loop (length (pool_of m)) 0 m [] =
          (m', map (λ x, Sent x data) pre ++ SendFailed c data
                 :: map (λ x, Sent x data) (tail post))
        ∧ m' = disconnect c m
        ∧ pool_of m' = pre ++ post.
Proof using pool_of_disconnect.
  intros Hpool Hnodup Hdead Hlive.
  assert (Hc : c ∉ pre).
  { rewrite Hpool in Hnodup. apply NoDup_app in Hnodup as (_ & Hd & _).
    intros Hin. apply (Hd c Hin). set_solver. }
  assert (Hpool' : pool_of (disconnect c m) = pre ++ post).
  { rewrite pool_of_disconnect, Hpool.
    rewrite bool_decide_true by set_solver.
    by apply list_remove_first_middle. }
  exists (disconnect c m). split; [|done].
  rewrite (loop_live_run (length pre)); simpl.
  2:{ rewrite Hpool, length_app. lia. }
  2:{ rewrite Hpool, length_app. lia. }
  2:{ intros x Hx. rewrite drop_0, Hpool, take_app_length in Hx.
      apply Hlive. set_solver. }
  rewrite drop_0, Hpool, take_app_length.
  rewrite length_app. simpl.
  replace (length pre + S (length post) - length pre) with (S (length post)) by lia.
  simpl.
  assert (Hat : pool_of m !! length pre = Some c).
  { rewrite Hpool. by rewrite list_lookup_middle. }
  rewrite Hat. unfold send_json. rewrite Hdead.
  rewrite loop_all_live.
  - rewrite Hpool'. rewrite <- app_assoc. simpl.
    do 3 f_equal.
    replace (S (length pre)) with (length pre + 1) by lia.
    rewrite <- drop_drop, drop_app_length. by destruct post.
  - rewrite Hpool', length_app. lia.
  - intros x Hx. apply Hlive. rewrite <- Hpool'.
    by eapply subseteq_drop.
Qed.
End fan_out.

Lemma dashboards_disconnect c m :
  active_dashboard_connections (disconnect_dashboard c m)
  = if bool_decide (c ∈ active_dashboard_connections m)
    then list_remove_first c (active_dashboard_connections m)
    else active_dashboard_connections m.
Proof. unfold disconnect_dashboard. by case_bool_decide. Qed.

Lemma robots_disconnect c m :
  active_robot_connections (disconnect_robot c m)
  = if bool_decide (c ∈ active_robot_connections m)
    then list_remove_first c (active_robot_connections m)
    else active_robot_connections m.
Proof. unfold disconnect_robot. by case_bool_decide. Qed.

Lemma disconnect_dashboard_robots c m :
  active_robot_connections (disconnect_dashboard c m) = active_robot_connections m.
Proof. unfold disconnect_dashboard. by case_bool_decide. Qed.

(** With every dashboard alive the broadcast reaches all of them, in
    pool order, and leaves the pools alone. *)
Lemma broadcast_all_live env data m :
  (∀ c, c ∈ active_dashboard_connections m → wire env c = None) →
  broadcast_sensor_data env data m
  = (m, map (λ c, Sent c data) (active_dashboard_connections m)).
Proof.
  intros Hlive. unfold broadcast_sensor_data.
  rewrite loop_all_live; rewrite ?drop_0; [done|lia|done].
Qed.

Lemma recipients_app tr tr' :
  recipients (tr ++ tr') = recipients tr ++ recipients tr'.
Proof. apply omap_app. Qed.

Lemma recipients_sent data l : recipients (map (λ c, Sent c data) l) = l.
Proof. induction l as [|x l IH]; [done|]. simpl. f_equal. exact IH. Qed.

Lemma recipients_failed c data tr :
  recipients (SendFailed c data :: tr) = recipients tr.
Proof. done. Qed.

(** One dead dashboard in a pool without repetitions: the broadcast
    reaches the dashboards before it and those after its successor;
    the successor is passed over although its socket is alive. *)
Lemma broadcast_one_dead env data m pre c post e :
  active_dashboard_connections m = pre ++ c :: post →
  NoDup (active_dashboard_connections m) →
  wire env c = Some e →
  (∀ x, x ∈ pre ++ post → wire env x = None) →
  recipients (broadcast_sensor_data env data m).2 = pre ++ tail post
  ∧ active_dashboard_connections (broadcast_sensor_data env data m).1
    = pre ++ post.
Proof.
  intros Hpool Hnodup Hdead Hlive.
  destruct (loop_one_dead _ _ dashboards_disconnect env data m pre c post e)
    as (m' & Hrun & _ & Hpool'); try done.
  unfold broadcast_sensor_data. rewrite Hrun. split; [|done].
  cbn [snd]. by rewrite recipients_app, recipients_failed, !recipients_sent.
Qed.

(** ** Dictionaries *)

Lemma dict_update_lookup_new d other k v :
  other !! k = Some v → dict_update d other !! k = Some v.
Proof. intros H. unfold dict_update. by apply lookup_union_Some_l. Qed.

Lemma dict_update_lookup_old d other k :
  other !! k = None → dict_update d other !! k = d !! k.
Proof. intros H. unfold dict_update. by apply lookup_union_r. Qed.

Lemma action_entry_left r l rr : action_entry r l rr !! "left_motor" = Some l.
Proof. reflexivity. Qed.

Lemma action_entry_right r l rr : action_entry r l rr !! "right_motor" = Some rr.
Proof. reflexivity. Qed.

(** ** Claims about the pools *)

(** C1 (fails on the code): a broadcast over a pool in which exactly one
    connection fails its send should reach every other connection and
    drop the failing one.  With the pool [[1; 2; 3]] and connection [1]
    dead, the loop removes [1] from the list it is iterating, so that
    index [1] now holds connection [3]: connection [2], whose socket is
    alive, is never sent the message.  Connection [1] does leave the
    pool. *)
Theorem broadcast_passes_over_successor_of_dead :
  let env := sample_env [1] None in
  let after := broadcast_sensor_data env sample_notice three_dashboards in
  (wire env 1 ≠ None ∧ wire env 2 = None ∧ wire env 3 = None)
  ∧ after.2 = [SendFailed 1 sample_notice; Sent 3 sample_notice]
  ∧ recipients after.2 = [3]
  ∧ active_dashboard_connections after.1 = [2; 3].
Proof. vm_compute. repeat split; congruence. Qed.

Lemma list_remove_absent x l :
  x ∉ l → list_remove x l = raise (Raise OtherException "list.remove(x): x not in list").
Proof.
  induction l as [|y l IH]; [done|].
  intros [Hne Hx]%not_elem_of_cons. simpl.
  rewrite decide_False by done. by rewrite IH.
Qed.

Lemma list_remove_present x l :
  x ∈ l → list_remove x l = ret (list_remove_first x l).
Proof.
  induction l as [|y l IH]; [by intros ?%elem_of_nil|].
  intros Hx. simpl. destruct (decide (x = y)); [done|].
  rewrite IH; [done|]. by apply elem_of_cons in Hx as [?|?].
Qed.

(** The membership test in front of [remove] is what keeps the
    [ValueError] away: with it, unregistering never raises, and it does
    what the exception-free [unregister] does. *)
Lemma unregister_raising_returns r ws m :
  unregister_raising r ws m = ret (unregister r ws m).
Proof.
  destruct r; simpl.
  - unfold disconnect_dashboard_raising, disconnect_dashboard.
    case_bool_decide; [|done]. by rewrite list_remove_present.
  - unfold disconnect_robot_raising, disconnect_robot.
    case_bool_decide; [|done]. by rewrite list_remove_present.
Qed.

(** C8: for a connection that is not in its pool, [remove] on the pool
    would raise [ValueError]; unregistering it nevertheless raises
    nothing and returns the connection manager as it was, and so does
    unregistering it once more. *)
Theorem unregister_absent_is_noop (r : role) (ws : WebSocket)
    (m : ConnectionManager) :
  ws ∉ pool r m →
  list_remove ws (pool r m)
  = raise (Raise OtherException "list.remove(x): x not in list")
  ∧ unregister_raising r ws m = ret m
  ∧ (m' ←! unregister_raising r ws m; unregister_raising r ws m') = ret m
  ∧ unregister r ws m = m.
Proof.
  intros Habsent.
  assert (H : unregister_raising r ws m = ret m).
  { destruct r; simpl in *.
    - unfold disconnect_dashboard_raising. by rewrite bool_decide_false.
    - unfold disconnect_robot_raising. by rewrite bool_decide_false. }
  split_and!.
  - by apply list_remove_absent.
  - done.
  - rewrite H. cbn [bind ret]. exact H.
  - rewrite unregister_raising_returns in H. by injection H.
Qed.

(** C8 on the pool [[1; 2; 3]] and the connection [4]. *)
Lemma unregister_absent_is_noop_witness :
  list_remove 4 (pool dashboard three_dashboards)
  = raise (Raise OtherException "list.remove(x): x not in list")
  ∧ unregister_raising dashboard 4 three_dashboards = ret three_dashboards
  ∧ (m' ←! unregister_raising dashboard 4 three_dashboards;
     unregister_raising dashboard 4 m') = ret three_dashboards
  ∧ unregister dashboard 4 three_dashboards = three_dashboards.
Proof.
  apply unregister_absent_is_noop. apply (bool_decide_unpack _). vm_compute. exact I.
Defined.

(** ** The robot handler, step by step *)

Lemma send_json_live env ws data :
  wire env ws = None → send_json env ws data = (Sent ws data, None).
Proof. intros H. unfold send_json. by rewrite H. Qed.

Lemma read_action_obj m l r :
  m !! "left_motor" = Some l → m !! "right_motor" = Some r →
  read_action (JObj m)
  = (left_motor ←! clamp_value l;
     right_motor ←! clamp_value r;
     ret (Some (left_motor, right_motor))).
Proof.
  intros Hl Hr. unfold read_action, py_contains, py_getitem.
  rewrite Hl, Hr. rewrite !bool_decide_true by eauto. reflexivity.
Qed.

Lemma clamp_value_numeric v :
  numeric v = true → ∃ x, clamp_value v = inr x ∧ setpoint x.
Proof.
  destruct v as [|b|z|f| | |]; try done; intros _;
    unfold clamp_value, py_min, py_max, py_lt, py_gt; cbn [bind ret].
  - exists (JBool b). by destruct b.
  - destruct (z <? 100)%Z eqn:Hlt; cbn [bind ret py_gt].
    + destruct (-100 <? z)%Z eqn:Hgt; eexists; (split; [done|]); simpl; lia.
    + eexists; (split; [done|]); simpl; lia.
  - change (float_of_Z 100) with 100%float.
    change (float_of_Z (-100)) with (-100)%float.
    destruct (PrimFloat.ltb f 100) eqn:Hlt; cbn [bind ret py_gt].
    + change (float_of_Z (-100)) with (-100)%float.
      destruct (PrimFloat.ltb (-100) f) eqn:Hgt;
        eexists; (split; [done|]); simpl; [done|lia].
    + eexists; (split; [done|]); simpl; lia.
Qed.

Lemma clamp_value_not_numeric v :
  numeric v = false → ∃ e, clamp_value v = inl e ∧ exn_type e = TypeError.
Proof. destruct v; try done; intros _; by eexists. Qed.

Lemma clamp_value_int z : clamp_value (JInt z) = inr (JInt (clamp_int z)).
Proof.
  unfold clamp_value, py_min, py_max, py_lt, py_gt, clamp_int; cbn [bind ret].
  destruct (z <? 100)%Z eqn:Hlt; cbn [bind ret].
  - destruct (-100 <? z)%Z eqn:Hgt; do 2 f_equal; lia.
  - do 2 f_equal. lia.
Qed.

Ltac case_sends :=
  cbv beta iota zeta delta [completion_of];
  repeat (match goal with
          | |- context [send_json ?e ?w ?d] =>
              destruct (send_json e w d) as [? [?|]]
          | |- context [broadcast_sensor_data ?e ?d ?m] =>
              destruct (broadcast_sensor_data e d m) as [? ?]
          | |- context [send_action_to_robot ?e ?d ?m] =>
              destruct (send_action_to_robot e d m) as [? ?]
          | |- context [is_WebSocketDisconnect ?e] =>
              destruct (is_WebSocketDisconnect e)
          end;
          cbv beta iota zeta delta [completion_of]).

Lemma store_action_core ws l r env st :
  core (store_action ws l r env st).1.1
  = match commit env with
    | Some _ => core st
    | None =>
        (last_sensor_data st,
         dict_update (last_action st) (action_entry (websocket_row l r env st) l r),
         add_action (websocket_row l r env st) (db st))
    end.
Proof.
  unfold store_action. destruct (commit env); cbv zeta; case_sends; reflexivity.
Qed.

Lemma on_text_core ws data env st :
  core (on_text ws data env st).1.1
  = match data with
    | Json action_data =>
        match read_action action_data with
        | inr (Some (l, r)) => core (store_action ws l r env st).1.1
        | _ => core st
        end
    | Malformed | Unloadable _ => core st
    end.
Proof.
  unfold on_text.
  destruct data as [|action_data|e];
    [case_sends; reflexivity| |case_sends; reflexivity].
  destruct (read_action action_data) as [e|[[l r]|]].
  - case_sends; reflexivity.
  - destruct (store_action ws l r env st) as [[st' tr] [|e]];
      cbv beta iota zeta; case_sends; reflexivity.
  - case_sends; reflexivity.
Qed.

Lemma robot_receive_core ws data env st :
  core (robot_receive ws data env st).1.1 = core (on_text ws data env st).1.1.
Proof.
  unfold robot_receive.
  destruct (on_text ws data env st) as [[st' tr] [|e]]; [done|].
  case_sends; reflexivity.
Qed.

Lemma create_action_core action env st :
  core (create_action action env st).1.1
  = if ActionPayload.valid action
    then match commit env with
         | Some _ => core st
         | None =>
             (last_sensor_data st,
              dict_update (last_action st) (action_entry_of_row (api_row action env st)),
              add_action (api_row action env st) (db st))
         end
    else core st.
Proof.
  unfold create_action. destruct (ActionPayload.valid action); [|done].
  cbv beta iota zeta delta [negb]. destruct (commit env); [done|].
  case_sends; reflexivity.
Qed.

Lemma store_sensor_data_core payload env st :
  core (store_sensor_data payload env st).1.1
  = match commit env with
    | Some _ => core st
    | None =>
        (dict_update (last_sensor_data st) (snapshot payload env st),
         last_action st,
         add_sensor (sensor_row payload env st) (db st))
    end.
Proof.
  unfold store_sensor_data. destruct (commit env); [done|].
  case_sends; reflexivity.
Qed.

Lemma get_latest_sensor_data_core st :
  core (get_latest_sensor_data st).1
  = if dict_truthy (last_sensor_data st) then core st
    else match latest SensorData.timestamp (sensor_data (db st)) with
         | Some r =>
             (dict_update (last_sensor_data st) (sensor_entry_of_row r),
              last_action st, db st)
         | None => core st
         end.
Proof.
  unfold get_latest_sensor_data.
  destruct (dict_truthy (last_sensor_data st)) eqn:Ht.
  - by rewrite Ht.
  - destruct (latest _ _); cbv zeta;
      match goal with |- context [dict_truthy ?d] => by destruct (dict_truthy d) end.
Qed.

Lemma get_latest_action_core st :
  core (get_latest_action st).1 = core st
  ∨ ∃ r, latest ActionData.timestamp (action_data (db st)) = Some r
         ∧ core (get_latest_action st).1
           = (last_sensor_data st,
              dict_update (last_action st) (action_entry_of_row r), db st).
Proof.
  unfold get_latest_action.
  match goal with |- context [match ?c with Some a => _ | None => _ end] =>
    destruct c; [by left|] end.
  destruct (latest _ _) as [r|]; [|by left].
  right. by exists r.
Qed.

Lemma dashboard_websocket_core ws env st :
  core (dashboard_websocket ws env st).1 = core st.
Proof.
  unfold dashboard_websocket. cbv zeta.
  match goal with |- context [dict_truthy ?d] => destruct (dict_truthy d) end;
    case_sends; reflexivity.
Qed.

Lemma boot_core d :
  core (boot d)
  = (match latest SensorData.timestamp (sensor_data d) with
     | Some r => dict_update ∅ (sensor_entry_of_row r)
     | None => ∅
     end,
     match latest ActionData.timestamp (action_data d) with
     | Some r => dict_update initial_last_action (action_entry_of_row r)
     | None => initial_last_action
     end,
     d).
Proof.
  unfold boot, startup_event, module_state.
  destruct (latest SensorData.timestamp _), (latest ActionData.timestamp _) eqn:E;
    cbn [db sensor_data action_data set_last_sensor_data set_last_action
         last_sensor_data last_action manager] in *; rewrite ?E; reflexivity.
Qed.

Lemma latest_from_elem {A} (f : A → float) rows best r :
  foldl (λ best r, match best with
                   | None => Some r
                   | Some b => if sql_le (f b) (f r)
                               then Some r else Some b
                   end) best rows = Some r →
  best = Some r ∨ r ∈ rows.
Proof.
  revert best. induction rows as [|x rows IH]; simpl; intros best Hr; [by left|].
  apply IH in Hr as [Hr|Hr]; [|right; by constructor].
  destruct best as [b|].
  - destruct (sql_le (f b) (f x)); simplify_eq; [right; by left|by left].
  - simplify_eq. right. by left.
Qed.

Lemma latest_elem {A} (f : A → float) rows r :
  latest f rows = Some r → r ∈ rows.
Proof. intros Hr. by destruct (latest_from_elem f rows None r Hr). Qed.

Lemma latest_from_Some {A} (f : A → float) rows b :
  is_Some (foldl (λ best r, match best with
                            | None => Some r
                            | Some b => if sql_le (f b) (f r)
                                        then Some r else Some b
                            end) (Some b) rows).
Proof.
  revert b. induction rows as [|x rows IH]; simpl; intros b; [by eexists|].
  destruct (sql_le (f b) (f x)); apply IH.
Qed.

Lemma latest_None {A} (f : A → float) rows : latest f rows = None → rows = [].
Proof.
  destruct rows as [|x rows]; [done|]. unfold latest. simpl. intros H.
  destruct (latest_from_Some f rows x) as [r Hr]. congruence.
Qed.

(** [sql_le] is a total preorder: the comparison of the floats'
    specification is one on what is not NaN, and NaN lies below. *)
Lemma SFcompare_refl x : spec_nan x = false → SFcompare x x = Some Eq.
Proof.
  destruct x as [[]|[]| |[] m e]; simpl; try done; intros _;
    rewrite ?Z.compare_refl, ?Pos.compare_cont_refl; done.
Qed.

Lemma is_nan_spec f : is_nan f = spec_nan (Prim2SF f).
Proof.
  unfold is_nan. rewrite FloatAxioms.eqb_spec. unfold SFeqb.
  destruct (spec_nan (Prim2SF f)) eqn:H.
  - by destruct (Prim2SF f).
  - by rewrite SFcompare_refl.
Qed.

Lemma sql_le_spec a b : sql_le a b = spec_le (Prim2SF a) (Prim2SF b).
Proof.
  unfold sql_le, spec_le. by rewrite !is_nan_spec, FloatAxioms.leb_spec.
Qed.

Ltac compare_cases :=
  repeat match goal with
    | |- context [Z.compare ?a ?b] => destruct (Z.compare_spec a b)
    | H : context [Z.compare ?a ?b] |- _ => destruct (Z.compare_spec a b)
    | |- context [Pos.compare_cont Eq ?a ?b] =>
        change (Pos.compare_cont Eq a b) with (Pos.compare a b);
        destruct (Pos.compare_spec a b)
    | H : context [Pos.compare_cont Eq ?a ?b] |- _ =>
        change (Pos.compare_cont Eq a b) with (Pos.compare a b) in H;
        destruct (Pos.compare_spec a b)
    end; simpl in *.

Lemma spec_le_total x y : spec_le x y = false → spec_le y x = true.
Proof.
  unfold spec_le, SFleb.
  destruct x as [[]|[]| |[] m e], y as [[]|[]| |[] m' e']; simpl; try done;
    compare_cases; try done; lia.
Qed.

Lemma spec_le_trans x y z :
  spec_le x y = true → spec_le y z = true → spec_le x z = true.
Proof.
  unfold spec_le, SFleb.
  destruct x as [[]|[]| |[] m e], y as [[]|[]| |[] m' e'],
           z as [[]|[]| |[] m'' e'']; simpl; try done;
    compare_cases; try done; lia.
Qed.

Lemma sql_le_total a b : sql_le a b = false → sql_le b a = true.
Proof. rewrite !sql_le_spec. apply spec_le_total. Qed.

Lemma sql_le_trans a b c :
  sql_le a b = true → sql_le b c = true → sql_le a c = true.
Proof. rewrite !sql_le_spec. apply spec_le_trans. Qed.

Lemma sql_le_refl a : sql_le a a = true.
Proof.
  destruct (sql_le a a) eqn:H; [done|].
  pose proof (sql_le_total _ _ H). congruence.
Qed.

Lemma latest_from_greatest {A} (f : A → float) rows : ∀ b r,
  foldl (λ best r, match best with
                   | None => Some r
                   | Some b => if sql_le (f b) (f r)
                               then Some r else Some b
                   end) (Some b) rows = Some r →
  sql_le (f b) (f r) = true
  ∧ Forall (λ x, sql_le (f x) (f r) = true) rows.
Proof.
  induction rows as [|x rows IH]; simpl; intros b r Hr.
  { simplify_eq. split; [apply sql_le_refl|constructor]. }
  destruct (sql_le (f b) (f x)) eqn:Hbx.
  - apply IH in Hr as [Hxr Hrows]. split; [by eapply sql_le_trans|].
    by constructor.
  - apply IH in Hr as [Hbr Hrows]. split; [done|]. constructor; [|done].
    eapply sql_le_trans; [|exact Hbr]. by apply sql_le_total.
Qed.

(** The row [latest] gives has a greatest timestamp of the table. *)
Lemma latest_greatest {A} (f : A → float) rows r :
  latest f rows = Some r →
  Forall (λ x, sql_le (f x) (f r) = true) rows.
Proof.
  destruct rows as [|x rows]; [done|]. unfold latest. simpl. intros Hr.
  apply latest_from_greatest in Hr as [Hx Hrows]. by constructor.
Qed.

Lemma clamp_value_setpoint v x : clamp_value v = inr x → setpoint x.
Proof.
  intros H. destruct (numeric v) eqn:Hn.
  - destruct (clamp_value_numeric v Hn) as (x' & Hx' & Hs). congruence.
  - destruct (clamp_value_not_numeric v Hn) as (e & He & _). congruence.
Qed.

Lemma read_action_setpoints a l r :
  read_action a = inr (Some (l, r)) → setpoint l ∧ setpoint r.
Proof.
  unfold read_action, bind at 1.
  destruct (py_contains "left_motor" a) as [|[]]; [done| |done].
  cbv beta iota delta [negb]. unfold bind at 1.
  destruct (py_contains "right_motor" a) as [|[]]; [done| |done].
  cbv beta iota delta [negb]. unfold bind at 1.
  destruct (py_getitem a "left_motor") as [|lv]; [done|].
  unfold bind at 1. destruct (clamp_value lv) as [|l'] eqn:Hl; [done|].
  unfold bind at 1. destruct (py_getitem a "right_motor") as [|rv]; [done|].
  unfold bind at 1. destruct (clamp_value rv) as [|r'] eqn:Hr; [done|].
  unfold ret. intros [= <- <-]. eauto using clamp_value_setpoint.
Qed.

Lemma clamp_int_setpoint z : setpoint (JInt (clamp_int z)).
Proof. unfold clamp_int. simpl. lia. Qed.

Lemma handle_effect rq env st : effect st (handle rq env st).
Proof.
  destruct rq as [payload| |action| |ws|ws|ws|ws data|ws|]; simpl.
  - pose proof (store_sensor_data_core payload env st) as H.
    destruct (commit env); [by apply effect_none|].
    by eapply effect_telemetry_accepted.
  - pose proof (get_latest_sensor_data_core st) as H.
    destruct (dict_truthy _); [by apply effect_none|].
    destruct (latest _ _) as [r|] eqn:Hr; [|by apply effect_none].
    eapply effect_telemetry_reloaded; [|done]. by eapply latest_elem.
  - pose proof (create_action_core action env st) as H.
    destruct (ActionPayload.valid action); [|by apply effect_none].
    destruct (commit env); [by apply effect_none|].
    eapply effect_command_accepted; [|done].
    split; apply clamp_int_setpoint.
  - destruct (get_latest_action_core st) as [H|(r & Hr & H)];
      [by apply effect_none|].
    eapply effect_command_reloaded; [|done]. by eapply latest_elem.
  - apply effect_none, dashboard_websocket_core.
  - by apply effect_none.
  - by apply effect_none.
  - pose proof (robot_receive_core ws data env st) as H.
    rewrite on_text_core in H.
    destruct data as [|a|e]; [by apply effect_none| |by apply effect_none].
    destruct (read_action a) as [e|[[l r]|]] eqn:Hread; try by apply effect_none.
    rewrite store_action_core in H.
    destruct (commit env); [by apply effect_none|].
    eapply (effect_command_accepted _ _ (websocket_row l r env st)); [|done].
    by apply read_action_setpoints in Hread.
  - by apply effect_none.
  - by apply effect_restart.
Qed.

(** ** Invariants of the caches *)

Lemma dict_update_covered (d other : pydict) :
  dom d ⊆ dom other → dict_update d other = other.
Proof.
  intros Hsub. unfold dict_update. apply map_eq. intros k.
  destruct (other !! k) as [v|] eqn:Hk.
  - by apply lookup_union_Some_l.
  - rewrite lookup_union_r by done.
    apply not_elem_of_dom. apply not_elem_of_dom in Hk. set_solver.
Qed.

Lemma sensor_entry_dom a b c d e f a' b' c' d' e' f' :
  dom (sensor_entry a b c d e f) = dom (sensor_entry a' b' c' d' e' f').
Proof. unfold sensor_entry. simpl. by rewrite !dom_insert_L. Qed.

Lemma sensor_entry_update old a b c d e f :
  sensor_shaped old →
  dict_update old (sensor_entry a b c d e f) = sensor_entry a b c d e f.
Proof.
  intros [->|(a' & b' & c' & d' & e' & f' & ->)]; apply dict_update_covered.
  - set_solver.
  - by rewrite (sensor_entry_dom a' b' c' d' e' f' a b c d e f).
Qed.

Lemma dict_truthy_lookup (d : pydict) k v : d !! k = Some v → dict_truthy d = true.
Proof.
  intros Hk. unfold dict_truthy. destruct (Nat.eqb_spec (size d) 0) as [H0|]; [|done].
  apply map_size_empty_inv in H0. subst. by rewrite lookup_empty in Hk.
Qed.

Lemma sensor_entry_truthy a b c d e f :
  dict_truthy (sensor_entry a b c d e f) = true.
Proof. by apply (dict_truthy_lookup _ "sample_id" (JInt a)). Qed.

Lemma cached_after_update P la row :
  stored_setpoints P row →
  ∃ l r, dict_update la (action_entry_of_row row) !! "left_motor" = Some l
         ∧ dict_update la (action_entry_of_row row) !! "right_motor" = Some r
         ∧ P l ∧ P r.
Proof.
  intros [Hl Hr]. exists (ActionData.left_motor row), (ActionData.right_motor row).
  split_and!; try done; by apply dict_update_lookup_new.
Qed.

Lemma core_inv st st' :
  core st' = core st →
  last_sensor_data st' = last_sensor_data st
  ∧ last_action st' = last_action st ∧ db st' = db st.
Proof. unfold core. by intros [= -> -> ->]. Qed.

Lemma boot_consistent d :
  Forall (stored_setpoints setpoint) (action_data d) → consistent (boot d).
Proof.
  intros Hrows. pose proof (boot_core d) as Hcore.
  unfold core in Hcore. injection Hcore as Hs Ha Hd.
  split; unfold cached_setpoints; rewrite ?Hs, ?Ha, ?Hd.
  - destruct (latest SensorData.timestamp _) as [r|]; [right|by left].
    unfold sensor_entry_of_row. rewrite sensor_entry_update by by left. eauto 10.
  - done.
  - destruct (latest ActionData.timestamp _) as [r|] eqn:Hr.
    + apply cached_after_update.
      apply latest_elem in Hr. by eapply Forall_forall in Hrows.
    + exists (JInt 0), (JInt 0). split_and!; try done; simpl; lia.
  - intros ->. done.
  - intros Hne. destruct (latest SensorData.timestamp _) as [r|] eqn:Hr.
    + unfold sensor_entry_of_row. rewrite sensor_entry_update by by left.
      apply sensor_entry_truthy.
    + by apply latest_None in Hr.
Qed.

Lemma effect_consistent st st' : effect st st' → consistent st → consistent st'.
Proof.
  intros Heff [Hshape Hrows Hcache Hdef Htruthy].
  destruct Heff as [H|payload env H|row Hrow H|row Hrow H|row Hrow H|H].
  - apply core_inv in H as (Hs & Ha & Hd).
    split; unfold cached_setpoints; by rewrite ?Hs, ?Ha, ?Hd.
  - unfold core in H. injection H as Hs Ha Hd.
    unfold snapshot in Hs. rewrite sensor_entry_update in Hs by done.
    split; unfold cached_setpoints; rewrite ?Hs, ?Ha, ?Hd; simpl;
      first [done | right; by eauto 10 | intros _; apply sensor_entry_truthy].
  - unfold core in H. injection H as Hs Ha Hd.
    unfold sensor_entry_of_row in Hs. rewrite sensor_entry_update in Hs by done.
    split; unfold cached_setpoints; rewrite ?Hs, ?Ha, ?Hd; simpl;
      first [done | right; by eauto 10 | intros _; apply sensor_entry_truthy].
  - unfold core in H. injection H as Hs Ha Hd.
    split; unfold cached_setpoints; rewrite ?Hs, ?Ha, ?Hd; simpl;
      first [done
            | by apply cached_after_update
            | apply Forall_app; split; [done|]; by constructor
            | intros Hnil; by apply app_eq_nil in Hnil as [_ ?]].
  - unfold core in H. injection H as Hs Ha Hd.
    split; unfold cached_setpoints; rewrite ?Hs, ?Ha, ?Hd; simpl;
      first [done
            | apply cached_after_update; by eapply Forall_forall in Hrows
            | intros Hnil; rewrite Hnil in Hrow; by apply elem_of_nil in Hrow].
  - subst st'. by apply boot_consistent.
Qed.

Lemma reachable_consistent st : reachable st → consistent st.
Proof.
  induction 1 as [|rq env st _ IH].
  - by apply boot_consistent.
  - eapply effect_consistent; [apply handle_effect|done].
Qed.


Lemma get_latest_sensor_data_cached st :
  dict_truthy (last_sensor_data st) = true →
  get_latest_sensor_data st = (st, OK (last_sensor_data st)).
Proof. intros H. unfold get_latest_sensor_data. by rewrite !H. Qed.

(** ** Claims about the caches *)



(** C6 (fails on the code): the cache should only ever hold integer
    setpoints within [[-100, 100]].  The robot socket sends
    [{"left_motor": 50.5, "right_motor": 0}] to a fresh server; the
    handler clamps without looking at the type, so that the float [50.5]
    is stored in the Integer column and cached, and from then on the
    reads of that row, whose response model wants an [int], answer 500. *)
Theorem fraction_is_cached :
  reachable after_fraction
  ∧ last_action after_fraction !! "left_motor" = Some (JFloat 50.5)
  ∧ ¬ integer_setpoint (JFloat 50.5)
  ∧ ¬ cached_setpoints integer_setpoint after_fraction
  ∧ ActionData.left_motor <$> action_data (db after_fraction) = [JFloat 50.5]
  ∧ (get_latest_action after_fraction).2 = InternalServerError
  ∧ get_action_by_id 1 after_fraction = InternalServerError.
Proof.
  assert (Hl : last_action after_fraction !! "left_motor" = Some (JFloat 50.5))
    by (vm_compute; reflexivity).
  split_and!.
  - apply reachable_handle, reachable_boot.
  - done.
  - intros (z & Hz & _). discriminate.
  - intros (l & r & Hl' & _ & (z & Hz & _) & _). congruence.
  - vm_compute. reflexivity.
  - vm_compute. reflexivity.
  - vm_compute. reflexivity.
Qed.

(** Hence not every reachable state has integer setpoints in its cache. *)
Lemma cache_not_always_integer :
  ¬ (∀ st, reachable st → cached_setpoints integer_setpoint st).
Proof.
  intros Hclaim.
  destruct (Hclaim after_fraction) as (l & r & Hl & _ & (z & Hz & _) & _).
  - apply reachable_handle, reachable_boot.
  - assert (Hl' : last_action after_fraction !! "left_motor" = Some (JFloat 50.5))
      by (vm_compute; reflexivity).
    congruence.
Qed.

(** What the clamp does keep: in every reachable state both setpoints
    of [last_action] are numbers within [[-100, 100]]. *)
Lemma cache_setpoints_in_range (st : State) :
  reachable st → cached_setpoints setpoint st.
Proof. intros Hst. by apply reachable_consistent. Qed.

(** ** Claims about the robot socket *)

(** C7: a frame that is not JSON is answered on the same socket with
    exactly [{"error": "Invalid JSON"}]; when that reply goes out the
    state is untouched (pools, caches and database), the loop goes on,
    and the frames that follow are handled as if the bad one had never
    arrived. *)
Theorem malformed_text_answered (ws : WebSocket) (env : Env) (st : State)
    (inbox : list (text * Env)) :
  wire env ws = None →
  robot_receive ws Malformed env st
  = (st, [Sent ws {[ "error" := JStr "Invalid JSON" ]}], Continue)
  ∧ receive_loop ws ((Malformed, env) :: inbox) st
    = (let '(st', tr, o) := receive_loop ws inbox st in
       (st', Sent ws {[ "error" := JStr "Invalid JSON" ]} :: tr, o)).
Proof.
  intros Hlive.
  assert (H : robot_receive ws Malformed env st
              = (st, [Sent ws {[ "error" := JStr "Invalid JSON" ]}], Continue)).
  { unfold robot_receive, on_text. by rewrite send_json_live. }
  split; [done|].
  cbn [receive_loop]. rewrite H.
  by destruct (receive_loop ws inbox st) as [[st' tr] o].
Qed.

(** C7 on a server with two dashboards and the robot socket [7]. *)
Lemma malformed_text_answered_witness :
  robot_receive 7 Malformed (sample_env [] None)
                (with_pools [1; 2] [7] (boot empty_database))
  = (with_pools [1; 2] [7] (boot empty_database),
     [Sent 7 {[ "error" := JStr "Invalid JSON" ]}], Continue).
Proof.
  apply (malformed_text_answered 7 (sample_env [] None)
           (with_pools [1; 2] [7] (boot empty_database)) []).
  reflexivity.
Defined.

(** C10: a JSON object with both motor keys, one of whose values cannot
    be compared with an [int], makes [min] or [max] raise a [TypeError];
    the handler answers [{"error": str(e)}] on the same socket, and when
    that reply goes out the state is untouched and the loop goes on. *)
Theorem unorderable_motor_answered (ws : WebSocket) (m : pydict) (l r : json)
    (env : Env) (st : State) :
  m !! "left_motor" = Some l →
  m !! "right_motor" = Some r →
  numeric l = false ∨ numeric r = false →
  wire env ws = None →
  ∃ e, read_action (JObj m) = inl e
       ∧ exn_type e = TypeError
       ∧ robot_receive ws (Json (JObj m)) env st
         = (st, [Sent ws {[ "error" := JStr (str e) ]}], Continue).
Proof.
  intros Hl Hr Hbad Hlive.
  assert (Hread : ∃ e, read_action (JObj m) = inl e ∧ exn_type e = TypeError).
  { rewrite (read_action_obj m l r) by done.
    destruct (numeric l) eqn:Hnl.
    - destruct Hbad as [|Hnr]; [done|].
      destruct (clamp_value_numeric l Hnl) as (x & -> & _).
      destruct (clamp_value_not_numeric r Hnr) as (e & -> & He).
      by exists e.
    - destruct (clamp_value_not_numeric l Hnl) as (e & -> & He).
      by exists e. }
  destruct Hread as (e & Hread & He). exists e. split_and!; try done.
  unfold robot_receive, on_text. rewrite Hread.
  cbv beta iota zeta. by rewrite send_json_live.
Qed.

(** C10 on [{"left_motor": "fast", "right_motor": 10}]. *)
Lemma unorderable_motor_answered_witness :
  ∃ e, read_action (motor_command (JStr "fast") (JInt 10)) = inl e
       ∧ exn_type e = TypeError
       ∧ robot_receive 7 (Json (motor_command (JStr "fast") (JInt 10)))
                       (sample_env [] None)
                       (with_pools [1; 2] [7] (boot empty_database))
         = (with_pools [1; 2] [7] (boot empty_database),
            [Sent 7 {[ "error" := JStr (str e) ]}], Continue).
Proof.
  apply (unorderable_motor_answered 7 _ (JStr "fast") (JInt 10)).
  - reflexivity.
  - reflexivity.
  - left. reflexivity.
  - reflexivity.
Defined.

(** C4: with the dashboards [d1] and [d2] registered, every send and the
    commit succeeding, the frame [{"left_motor": 200, "right_motor":
    -200}] is acknowledged on the robot socket with the setpoints [100]
    and [-100] and then announced to [d1] and to [d2] as an
    [action_update] whose action is the new [last_action], with the same
    setpoints. *)
Theorem clamped_command_fans_out (ws d1 d2 : WebSocket) (env : Env) (st : State) :
  active_dashboard_connections (manager st) = [d1; d2] →
  (∀ c, wire env c = None) →
  commit env = None →
  ∃ st' ack update action,
    robot_receive ws (Json (motor_command (JInt 200) (JInt (-200)))) env st
    = (st', [Sent ws ack; Sent d1 update; Sent d2 update], Continue)
    ∧ ack !! "status" = Some (JStr "action_received")
    ∧ ack !! "left_motor" = Some (JInt 100)
    ∧ ack !! "right_motor" = Some (JInt (-100))
    ∧ update !! "type" = Some (JStr "action_update")
    ∧ update !! "action" = Some (JObj action)
    ∧ action !! "left_motor" = Some (JInt 100)
    ∧ action !! "right_motor" = Some (JInt (-100))
    ∧ last_action st' = action.
Proof.
  intros Hpool Hlive Hcommit.
  assert (Hread : read_action (motor_command (JInt 200) (JInt (-200)))
                  = inr (Some (JInt 100, JInt (-100)))) by reflexivity.
  unfold robot_receive, on_text. rewrite Hread. cbv beta iota zeta.
  unfold store_action. rewrite Hcommit. cbv beta iota zeta.
  rewrite send_json_live by done.
  rewrite broadcast_all_live by done.
  cbn [manager set_last_action set_db last_action set_manager]. rewrite Hpool.
  cbn [map].
  eexists _, _, _, _. split; [reflexivity|].
  split_and!; try reflexivity.
  - apply dict_update_lookup_new. reflexivity.
  - apply dict_update_lookup_new. reflexivity.
Qed.

(** C4 with the dashboards [1] and [2] and the robot socket [7]. *)
Lemma clamped_command_fans_out_witness :
  ∃ st' ack update action,
    robot_receive 7 (Json (motor_command (JInt 200) (JInt (-200))))
                  (sample_env [] None)
                  (with_pools [1; 2] [7] (boot empty_database))
    = (st', [Sent 7 ack; Sent 1 update; Sent 2 update], Continue)
    ∧ ack !! "status" = Some (JStr "action_received")
    ∧ ack !! "left_motor" = Some (JInt 100)
    ∧ ack !! "right_motor" = Some (JInt (-100))
    ∧ update !! "type" = Some (JStr "action_update")
    ∧ update !! "action" = Some (JObj action)
    ∧ action !! "left_motor" = Some (JInt 100)
    ∧ action !! "right_motor" = Some (JInt (-100))
    ∧ last_action st' = action.
Proof.
  apply clamped_command_fans_out.
  - reflexivity.
  - intros c. reflexivity.
  - reflexivity.
Defined.

(** ** Claims about the dashboard socket and the ingress errors *)

(** C9: on a server that has stored a telemetry snapshot and no command
    yet, a dashboard that connects is sent an [initial_data] payload
    whose [last_action] is the dictionary the module starts with: zero
    setpoints, [timestamp] and [source] null, no [id]. *)
Theorem first_dashboard_sees_default_action (ws : WebSocket) (env : Env)
    (st : State) :
  reachable st →
  sensor_data (db st) ≠ [] →
  action_data (db st) = [] →
  wire env ws = None →
  (dashboard_websocket ws env st).2
  = [Sent ws
       (list_to_map
          [("type", JStr "initial_data");
           ("sensors", JObj (last_sensor_data st));
           ("last_action",
            JObj (list_to_map [("left_motor", JInt 0);
                               ("right_motor", JInt 0);
                               ("timestamp", JNull);
                               ("source", JNull)]))])]
  ∧ last_action st !! "id" = None.
Proof.
  intros Hst Hsensors Hactions Hlive.
  destruct (reachable_consistent st Hst) as [_ _ _ Hdef Htruthy].
  specialize (Hdef Hactions). specialize (Htruthy Hsensors).
  split; [|by rewrite Hdef].
  unfold dashboard_websocket. cbv zeta.
  cbn [last_sensor_data last_action set_manager]. rewrite Htruthy.
  rewrite send_json_live by done. by rewrite Hdef.
Qed.

(** C9 on a fresh server after one snapshot. *)
Lemma first_dashboard_sees_default_action_witness :
  (dashboard_websocket 1 (sample_env [] None) after_one_snapshot).2
  = [Sent 1
       (list_to_map
          [("type", JStr "initial_data");
           ("sensors", JObj (last_sensor_data after_one_snapshot));
           ("last_action",
            JObj (list_to_map [("left_motor", JInt 0);
                               ("right_motor", JInt 0);
                               ("timestamp", JNull);
                               ("source", JNull)]))])]
  ∧ last_action after_one_snapshot !! "id" = None.
Proof.
  apply first_dashboard_sees_default_action.
  - apply reachable_handle, reachable_boot.
  - vm_compute. discriminate.
  - reflexivity.
  - reflexivity.
Defined.

(** C3: when the commit raises, [POST /actions/] answers 500 and changes
    nothing and sends nothing; the robot handler leaves both caches and
    the database as they were, sends nothing but error payloads, all of
    them on the socket the command came from, the first being the
    [Database error] one, and when that reply goes out the whole state
    is untouched and the loop goes on. *)
Theorem storage_failure_reported (action : ActionPayload.t) (ws : WebSocket)
    (action_data : json) (left_motor right_motor : json)
    (env : Env) (st : State) (e : exn) :
  commit env = Some e →
  ActionPayload.valid action = true →
  read_action action_data = inr (Some (left_motor, right_motor)) →
  create_action action env st
  = (st, [], HTTPException 500 ("Error storing action: " +:+ str e))
  ∧ (let '(st', tr, o) := robot_receive ws (Json action_data) env st in
     last_action st' = last_action st
     ∧ last_sensor_data st' = last_sensor_data st
     ∧ db st' = db st
     ∧ only_errors_to ws tr
     ∧ payload <$> head tr
       = Some {[ "error" := JStr ("Database error: " +:+ str e) ]}
     ∧ (wire env ws = None →
        st' = st
        ∧ tr = [Sent ws {[ "error" := JStr ("Database error: " +:+ str e) ]}]
        ∧ o = Continue)).
Proof.
  intros Hcommit Hvalid Hread. split.
  - unfold create_action. rewrite Hvalid, Hcommit. reflexivity.
  - unfold robot_receive, on_text. rewrite Hread. cbv beta iota zeta.
    unfold store_action. rewrite Hcommit.
    unfold only_errors_to, send_json.
    destruct (wire env ws) as [e'|]; cbv beta iota zeta delta [completion_of].
    + destruct (is_WebSocketDisconnect e');
        (split_and!; [done|done|done| |done|done]);
        repeat constructor; cbn [target payload]; eauto.
    + split_and!; try done. repeat constructor; cbn [target payload]; eauto.
Qed.

(** C3 with a full disk. *)
Lemma storage_failure_reported_witness :
  create_action (ActionPayload.Build 80 (-80) None) (sample_env [] (Some disk_full))
                (with_pools [1; 2] [7] (boot empty_database))
  = (with_pools [1; 2] [7] (boot empty_database), [],
     HTTPException 500 ("Error storing action: " +:+ str disk_full))
  ∧ (let '(st', tr, o) :=
       robot_receive 7 (Json (motor_command (JInt 80) (JInt (-80))))
                     (sample_env [] (Some disk_full))
                     (with_pools [1; 2] [7] (boot empty_database)) in
     last_action st' = last_action (with_pools [1; 2] [7] (boot empty_database))
     ∧ last_sensor_data st'
       = last_sensor_data (with_pools [1; 2] [7] (boot empty_database))
     ∧ db st' = db (with_pools [1; 2] [7] (boot empty_database))
     ∧ only_errors_to 7 tr
     ∧ payload <$> head tr
       = Some {[ "error" := JStr ("Database error: " +:+ str disk_full) ]}
     ∧ (wire (sample_env [] (Some disk_full)) 7 = None →
        st' = with_pools [1; 2] [7] (boot empty_database)
        ∧ tr = [Sent 7 {[ "error" := JStr ("Database error: " +:+ str disk_full) ]}]
        ∧ o = Continue)).
Proof.
  apply (storage_failure_reported (ActionPayload.Build 80 (-80) None) 7
           (motor_command (JInt 80) (JInt (-80))) (JInt 80) (JInt (-80))).
  - reflexivity.
  - reflexivity.
  - reflexivity.
Defined.

Lemma read_action_message l r :
  read_action (motor_command l r)
  = (left_motor ←! clamp_value l;
     right_motor ←! clamp_value r;
     ret (Some (left_motor, right_motor))).
Proof. by apply read_action_obj. Qed.

(** C2 as stated fails: [POST /actions/] with [left_motor = 150] does
    not succeed, let alone store [100]. *)
Lemma post_150_is_not_ingested :
  ¬ ingested_left (ActionPayload.Build 150 0 None) 100
      (sample_env [] None) (boot empty_database).
Proof. intros (body & Hbody & _). vm_compute in Hbody. discriminate. Qed.

(** C2, amended: [POST /actions/] with [left_motor] 150 or -150 is
    turned down by the validation of the body and changes nothing; a body
    that passes the validation is taken in with its [left_motor] as
    sent; it is on the robot socket that 150 is taken in as 100 and -150
    as -100. *)
Theorem post_out_of_range_rejected (rejected accepted : ActionPayload.t)
    (ws : WebSocket) (right : json) (env : Env) (st : State) :
  (ActionPayload.left_motor rejected = 150
   ∨ ActionPayload.left_motor rejected = -150)%Z →
  ActionPayload.valid accepted = true →
  numeric right = true →
  commit env = None →
  create_action rejected env st = (st, [], RequestValidationError)
  ∧ last_action (create_action accepted env st).1.1 !! "left_motor"
    = Some (JInt (ActionPayload.left_motor accepted))
  ∧ last_action (robot_receive ws (Json (motor_command (JInt 150) right))
                               env st).1.1 !! "left_motor"
    = Some (JInt 100)
  ∧ last_action (robot_receive ws (Json (motor_command (JInt (-150)) right))
                               env st).1.1 !! "left_motor"
    = Some (JInt (-100)).
Proof.
  intros Hbad Hvalid Hright Hcommit.
  assert (Hws : ∀ z, last_action
                       (robot_receive ws (Json (motor_command (JInt z) right))
                                      env st).1.1 !! "left_motor"
                     = Some (JInt (clamp_int z))).
  { intros z. destruct (clamp_value_numeric right Hright) as (r' & Hr' & _).
    pose proof (robot_receive_core ws (Json (motor_command (JInt z) right)) env st)
      as Hcore.
    rewrite on_text_core, read_action_message in Hcore.
    rewrite clamp_value_int, Hr' in Hcore. cbn [bind ret] in Hcore.
    rewrite store_action_core, Hcommit in Hcore.
    unfold core in Hcore. injection Hcore as _ Ha _. rewrite Ha.
    apply dict_update_lookup_new. reflexivity. }
  split_and!.
  - unfold create_action.
    assert (Hv : ActionPayload.valid rejected = false).
    { unfold ActionPayload.valid.
      destruct Hbad as [-> | ->]; reflexivity. }
    by rewrite Hv.
  - pose proof (create_action_core accepted env st) as Hcore.
    rewrite Hvalid, Hcommit in Hcore. unfold core in Hcore.
    injection Hcore as _ Ha _. rewrite Ha.
    apply dict_update_lookup_new.
    unfold action_entry_of_row, api_row. cbn [ActionData.left_motor].
    rewrite action_entry_left. do 2 f_equal.
    unfold ActionPayload.valid in Hvalid. unfold clamp_int. lia.
  - apply (Hws 150%Z).
  - apply (Hws (-150)%Z).
Qed.

(** C2, amended, on a fresh server. *)
Lemma post_out_of_range_rejected_witness :
  create_action (ActionPayload.Build 150 0 None) (sample_env [] None)
                (boot empty_database)
  = (boot empty_database, [], RequestValidationError).
Proof.
  apply (post_out_of_range_rejected
           (ActionPayload.Build 150 0 None) (ActionPayload.Build 80 (-80) None)
           7 (JInt 0) (sample_env [] None) (boot empty_database)).
  - left. reflexivity.
  - reflexivity.
  - reflexivity.
  - reflexivity.
Defined.

(** * Further properties of the code *)

(** ** Pools *)

Lemma list_remove_first_last x l : x ∉ l → list_remove_first x (l ++ [x]) = l.
Proof.
  intros Hx. rewrite list_remove_first_middle by done. by rewrite app_nil_r.
Qed.

Lemma list_remove_first_other x y l :
  y ≠ x → y ∈ l → y ∈ list_remove_first x l.
Proof.
  intros Hne. induction l as [|z l IH]; simpl; [done|].
  intros Hy. destruct (decide (x = z)) as [->|Hxz].
  - apply elem_of_cons in Hy as [->|Hy]; done.
  - apply elem_of_cons in Hy as [->|Hy]; [by left|right; auto].
Qed.

Lemma drop_list_remove_first l : ∀ i c,
  l !! i = Some c →
  drop (S i) (list_remove_first c l) `sublist_of` drop (S i) l.
Proof.
  induction l as [|y l IH]; intros i c Hc; [done|]. simpl.
  destruct (decide (c = y)) as [->|Hne].
  - replace (S i) with (i + 1) by lia. rewrite <- drop_drop. apply sublist_drop.
  - destruct i as [|i]; [simpl in Hc; congruence|]. simpl in Hc.
    by apply IH.
Qed.

Lemma list_remove_first_sublist x l : list_remove_first x l `sublist_of` l.
Proof.
  induction l as [|z l IH]; simpl; [done|].
  destruct (decide (x = z)); [by apply sublist_cons|by apply sublist_skip].
Qed.

(** X1: registering a connection that is not yet in its pool and
    unregistering it right away gives back the connection manager as it
    was. *)
Theorem register_then_unregister (r : role) (ws : WebSocket)
    (m : ConnectionManager) :
  ws ∉ pool r m → unregister r ws (register r ws m) = m.
Proof.
  intros Hws. destruct m as [ds rs]. destruct r; simpl in *.
  - unfold disconnect_dashboard, connect_dashboard. simpl.
    rewrite bool_decide_true by set_solver.
    by rewrite list_remove_first_last.
  - unfold disconnect_robot, connect_robot. simpl.
    rewrite bool_decide_true by set_solver.
    by rewrite list_remove_first_last.
Qed.

Lemma register_then_unregister_witness :
  unregister robot 4 (register robot 4 three_dashboards) = three_dashboards.
Proof.
  apply register_then_unregister. apply (bool_decide_unpack _). vm_compute. exact I.
Defined.

Section fan_out_facts.
Variable pool_of : ConnectionManager → list WebSocket.
Variable disconnect : WebSocket → ConnectionManager → ConnectionManager.
Hypothesis pool_of_disconnect : ∀ c m,
  pool_of (disconnect c m)
  = if bool_decide (c ∈ pool_of m) then list_remove_first c (pool_of m)
    else pool_of m.
Variable env : Env.
Variable data : pydict.

Local Abbreviation loop := (for_connection_in pool_of disconnect env data).

Lemma disconnect_sublist c m : pool_of (disconnect c m) `sublist_of` pool_of m.
Proof using pool_of_disconnect.
  rewrite pool_of_disconnect. case_bool_decide; [|done].
  apply list_remove_first_sublist.
Qed.

Lemma loop_sublist fuel : ∀ i m tr,
  pool_of (loop fuel i m tr).1 `sublist_of` pool_of m.
Proof using pool_of_disconnect.
  induction fuel as [|fuel IH]; intros i m tr; simpl; [done|].
  destruct (pool_of m !! i) as [c|]; [|done].
  destruct (send_json env c data) as [ev [e|]]; [|apply IH].
  etrans; [apply IH|apply disconnect_sublist].
Qed.

Lemma loop_keeps_live fuel : ∀ i m tr c,
  c ∈ pool_of m → wire env c = None → c ∈ pool_of (loop fuel i m tr).1.
Proof using pool_of_disconnect.
  induction fuel as [|fuel IH]; intros i m tr c Hc Hlive; simpl; [done|].
  destruct (pool_of m !! i) as [x|]; [|done].
  unfold send_json. destruct (wire env x) as [e|] eqn:Hx; [|by apply IH].
  apply IH; [|done]. rewrite pool_of_disconnect.
  case_bool_decide; [|done].
  apply list_remove_first_other; [|done]. congruence.
Qed.

Lemma loop_frame {A} (keep : ConnectionManager → A) fuel :
  (∀ c m, keep (disconnect c m) = keep m) →
  ∀ i m tr, keep (loop fuel i m tr).1 = keep m.
Proof.
  clear pool_of_disconnect. intros Hkeep.
  induction fuel as [|fuel IH]; intros i m tr; simpl; [done|].
  destruct (pool_of m !! i) as [c|]; [|done].
  destruct (send_json env c data) as [ev [e|]]; rewrite IH; [apply Hkeep|done].
Qed.

Lemma loop_trace fuel : ∀ i m tr,
  ∃ new, (loop fuel i m tr).2 = tr ++ new
         ∧ Forall (λ ev, target ev ∈ pool_of m ∧ payload ev = data) new
         ∧ length new ≤ fuel.
Proof using pool_of_disconnect.
  induction fuel as [|fuel IH]; intros i m tr; simpl.
  { exists []. by rewrite app_nil_r. }
  destruct (pool_of m !! i) as [c|] eqn:Hc.
  2:{ exists []. rewrite app_nil_r. split_and!; [done|done|simpl; lia]. }
  assert (Hin : c ∈ pool_of m) by by eapply list_elem_of_lookup_2.
  unfold send_json. destruct (wire env c) as [e|].
  - destruct (IH (S i) (disconnect c m) (tr ++ [SendFailed c data]))
      as (new & -> & Hnew & Hlen).
    exists (SendFailed c data :: new). rewrite <- app_assoc.
    split_and!; [done| |simpl; lia].
    constructor; [done|]. eapply Forall_impl; [done|].
    intros ev [Hev ?]. split; [|done].
    eapply sublist_subseteq; [apply disconnect_sublist|done].
  - destruct (IH (S i) m (tr ++ [Sent c data])) as (new & -> & Hnew & Hlen).
    exists (Sent c data :: new). rewrite <- app_assoc.
    split_and!; [done| |simpl; lia]. by constructor.
Qed.
Lemma loop_targets fuel : ∀ i m tr,
  ∃ new, (loop fuel i m tr).2 = tr ++ new
         ∧ target <$> new `sublist_of` drop i (pool_of m)
         ∧ Forall (λ ev, payload ev = data) new.
Proof using pool_of_disconnect.
  induction fuel as [|fuel IH]; intros i m tr; simpl.
  { exists []. rewrite app_nil_r. split_and!; [done|apply sublist_nil_l|done]. }
  destruct (pool_of m !! i) as [c|] eqn:Hc.
  2:{ exists []. rewrite app_nil_r. split_and!; [done|apply sublist_nil_l|done]. }
  rewrite (drop_S _ c) by done.
  unfold send_json. destruct (wire env c) as [e|].
  - destruct (IH (S i) (disconnect c m) (tr ++ [SendFailed c data]))
      as (new & -> & Hsub & Hdata).
    exists (SendFailed c data :: new). rewrite <- app_assoc.
    split_and!; [done| |by constructor].
    rewrite fmap_cons. apply sublist_skip. etrans; [exact Hsub|].
    rewrite pool_of_disconnect.
    rewrite bool_decide_true by by eapply list_elem_of_lookup_2.
    by apply drop_list_remove_first.
  - destruct (IH (S i) m (tr ++ [Sent c data])) as (new & -> & Hsub & Hdata).
    exists (Sent c data :: new). rewrite <- app_assoc.
    split_and!; [done| |by constructor].
    rewrite fmap_cons. by apply sublist_skip.
Qed.
End fan_out_facts.

Lemma pool_unregister r c m :
  pool r (unregister r c m)
  = if bool_decide (c ∈ pool r m) then list_remove_first c (pool r m)
    else pool r m.
Proof. destruct r; [apply dashboards_disconnect|apply robots_disconnect]. Qed.

Lemma other_pool_unregister r c m :
  pool (other r) (unregister r c m) = pool (other r) m.
Proof.
  destruct r; simpl.
  - unfold disconnect_dashboard. by case_bool_decide.
  - unfold disconnect_robot. by case_bool_decide.
Qed.

Lemma fan_out_loop r env data m :
  fan_out r env data m
  = for_connection_in (pool r) (unregister r) env data
                      (length (pool r m)) 0 m [].
Proof. by destruct r. Qed.

(** X2: a fan-out only ever prunes: the pool afterwards is the pool
    before with some connections left out, the other pool is not
    touched, and a connection whose socket is alive is still registered
    afterwards. *)
Theorem fan_out_keeps_live (r : role) (env : Env) (data : pydict)
    (m : ConnectionManager) :
  pool r (fan_out r env data m).1 `sublist_of` pool r m
  ∧ pool (other r) (fan_out r env data m).1 = pool (other r) m
  ∧ ∀ c, c ∈ pool r m → wire env c = None →
         c ∈ pool r (fan_out r env data m).1.
Proof.
  rewrite fan_out_loop. split_and!.
  - apply loop_sublist, pool_unregister.
  - apply (loop_frame _ _ _ _ (pool (other r))), other_pool_unregister.
  - intros c Hc Hlive. by apply loop_keeps_live; [apply pool_unregister|..].
Qed.

Lemma fan_out_keeps_live_witness :
  3 ∈ pool dashboard
        (fan_out dashboard (sample_env [1] None) sample_notice three_dashboards).1.
Proof.
  destruct (fan_out_keeps_live dashboard (sample_env [1] None) sample_notice
              three_dashboards) as (_ & _ & Hlive).
  apply Hlive.
  - apply (bool_decide_unpack _). vm_compute. exact I.
  - reflexivity.
Defined.

(** X3: the connections a fan-out calls [send_json] on, in the order of
    the calls, are the pool with some connections left out: none is
    called that is not registered, none more often than it is
    registered, and every call carries the data that was given. *)
Theorem fan_out_sends_within_pool (r : role) (env : Env) (data : pydict)
    (m : ConnectionManager) :
  target <$> (fan_out r env data m).2 `sublist_of` pool r m
  ∧ Forall (λ ev, payload ev = data) (fan_out r env data m).2.
Proof.
  rewrite fan_out_loop.
  destruct (loop_targets (pool r) (unregister r) (pool_unregister r) env data
              (length (pool r m)) 0 m []) as (new & -> & Hsub & Hdata).
  by rewrite drop_0 in Hsub.
Qed.

(** X4: the loop of a fan-out ends because it runs past the end of the
    pool, never because its fuel runs out: with any larger bound on the
    number of rounds the result is the same. *)
Theorem fan_out_ends_on_its_own (r : role) (env : Env) (data : pydict)
    (m : ConnectionManager) (fuel : nat) :
  length (pool r m) ≤ fuel →
  for_connection_in (pool r) (unregister r) env data fuel 0 m []
  = fan_out r env data m.
Proof.
  intros Hfuel. rewrite fan_out_loop. symmetry.
  apply for_connection_in_fuel; [apply pool_unregister|lia|done].
Qed.

Lemma fan_out_ends_on_its_own_witness :
  for_connection_in (pool dashboard) (unregister dashboard)
                    (sample_env [1] None) sample_notice 10 0 three_dashboards []
  = fan_out dashboard (sample_env [1] None) sample_notice three_dashboards.
Proof. apply fan_out_ends_on_its_own. vm_compute. lia. Defined.

(** X5: when the socket of every connection in the pool is alive, the
    fan-out delivers the data to each of them once, in pool order, and
    leaves the connection manager as it was. *)
Theorem fan_out_reaches_all_live (r : role) (env : Env) (data : pydict)
    (m : ConnectionManager) :
  (∀ c, c ∈ pool r m → wire env c = None) →
  fan_out r env data m = (m, map (λ c, Sent c data) (pool r m)).
Proof.
  intros Hlive. rewrite fan_out_loop.
  rewrite loop_all_live; rewrite ?drop_0; [done|lia|done].
Qed.

Lemma fan_out_reaches_all_live_witness :
  fan_out dashboard (sample_env [] None) sample_notice three_dashboards
  = (three_dashboards,
     map (λ c, Sent c sample_notice) (pool dashboard three_dashboards)).
Proof. apply fan_out_reaches_all_live. intros c _. reflexivity. Defined.

(** X6: in a pool without repetitions in which exactly one socket is dead,
    the fan-out delivers to the connections before the dead one and to
    those after its successor, removes the dead one and nothing else,
    and never calls [send_json] on the successor. *)
Theorem fan_out_one_dead (r : role) (env : Env) (data : pydict)
    (m : ConnectionManager) (pre post : list WebSocket) (c : WebSocket)
    (e : exn) :
  pool r m = pre ++ c :: post →
  NoDup (pool r m) →
  wire env c = Some e →
  (∀ x, x ∈ pre ++ post → wire env x = None) →
  (fan_out r env data m).2
  = map (λ x, Sent x data) pre
    ++ SendFailed c data :: map (λ x, Sent x data) (tail post)
  ∧ pool r (fan_out r env data m).1 = pre ++ post.
Proof.
  intros Hpool Hnodup Hdead Hlive. rewrite fan_out_loop.
  destruct (loop_one_dead (pool r) (unregister r) (pool_unregister r)
              env data m pre c post e) as (m' & -> & _ & Hpool'); done.
Qed.

Lemma fan_out_one_dead_witness :
  (fan_out robot (sample_env [5] None) sample_notice
           {| active_dashboard_connections := [];
              active_robot_connections := [4; 5; 6; 7] |}).2
  = map (λ x, Sent x sample_notice) [4]
    ++ SendFailed 5 sample_notice :: map (λ x, Sent x sample_notice) (tail [6; 7]).
Proof.
  apply (fan_out_one_dead robot (sample_env [5] None) sample_notice
           {| active_dashboard_connections := [];
              active_robot_connections := [4; 5; 6; 7] |}
           [4] [6; 7] 5 socket_closed).
  - reflexivity.
  - apply (bool_decide_unpack _). vm_compute. exact I.
  - reflexivity.
  - intros x Hx. apply elem_of_app in Hx as [Hx|Hx].
    + apply list_elem_of_singleton in Hx as ->. reflexivity.
    + apply elem_of_cons in Hx as [->|Hx]; [reflexivity|].
      apply list_elem_of_singleton in Hx as ->. reflexivity.
Defined.

(** ** Identifiers and lookups *)

Lemma next_id_gt {A} (id_of : A → Z) rows r :
  r ∈ rows → (id_of r < next_id id_of rows)%Z.
Proof.
  unfold next_id. induction rows as [|x rows IH]; simpl; [by intros ?%elem_of_nil|].
  intros [->|Hr]%elem_of_cons; [lia|]. specialize (IH Hr). lia.
Qed.

Lemma next_id_pos {A} (id_of : A → Z) rows : (0 < next_id id_of rows)%Z.
Proof.
  unfold next_id. induction rows as [|x rows IH]; simpl; lia.
Qed.

Lemma action_by_id_app_new i rows row :
  (∀ r, r ∈ rows → ActionData.id r ≠ i) →
  ActionData.id row = i →
  action_by_id i (rows ++ [row]) = Some row.
Proof.
  intros Hrows Hrow. unfold action_by_id.
  induction rows as [|x rows IH]; simpl.
  - by rewrite bool_decide_true.
  - rewrite bool_decide_false by (apply Hrows; by left).
    apply IH. intros r Hr. apply Hrows. by right.
Qed.

Lemma action_by_id_fresh rows row :
  ActionData.id row = next_id ActionData.id rows →
  action_by_id (ActionData.id row) (rows ++ [row]) = Some row.
Proof.
  intros Hid. apply action_by_id_app_new; [|done].
  intros r Hr. pose proof (next_id_gt ActionData.id rows r Hr). lia.
Qed.

Lemma action_by_id_unknown i rows :
  (∀ r, r ∈ rows → ActionData.id r ≠ i) → action_by_id i rows = None.
Proof.
  intros Hrows. unfold action_by_id. induction rows as [|x rows IH]; simpl; [done|].
  rewrite bool_decide_false by (apply Hrows; by left).
  apply IH. intros r Hr. apply Hrows. by right.
Qed.

Lemma action_by_id_elem i rows r :
  action_by_id i rows = Some r → r ∈ rows ∧ ActionData.id r = i.
Proof.
  unfold action_by_id. induction rows as [|x rows IH]; simpl; [done|].
  case_bool_decide as Hx.
  - intros [= ->]. split; [by left|done].
  - intros Hr. destruct (IH Hr). split; [by right|done].
Qed.

Lemma action_by_id_stored rows r :
  NoDup (map ActionData.id rows) → r ∈ rows →
  action_by_id (ActionData.id r) rows = Some r.
Proof.
  unfold action_by_id. induction rows as [|x rows IH]; simpl;
    [by intros _ ?%elem_of_nil|].
  intros [Hx Hnd]%NoDup_cons [->|Hr]%elem_of_cons.
  - by rewrite bool_decide_true.
  - rewrite bool_decide_false; [by apply IH|].
    intros Heq. apply Hx. rewrite Heq. by apply list_elem_of_fmap_2.
Qed.

(** The state parts a read of the latest action looks at. *)
Lemma action_response_integers r left_motor right_motor :
  ActionData.left_motor r = JInt left_motor →
  ActionData.right_motor r = JInt right_motor →
  action_response r = OK (ActionData.response r).
Proof.
  destruct r as [i t l rr s c]. cbn [ActionData.left_motor ActionData.right_motor].
  by intros -> ->.
Qed.

Lemma get_latest_action_cached st i r :
  last_action st !! "id" = Some (JInt i) →
  i ≠ 0%Z →
  action_by_id i (action_data (db st)) = Some r →
  get_latest_action st = (st, action_response r).
Proof.
  intros Hid Hi Hr. unfold get_latest_action. rewrite Hid.
  cbn [py_truthy]. destruct (Z.eqb_spec i 0); [done|].
  cbn [negb]. by rewrite Hr.
Qed.

(** ** The HTTP handlers *)

(** X8: when the commit succeeds and every dashboard socket is alive,
    [POST /sensors/] appends one row with the next id, answers with that
    id and the sample id, and sends the updated cache to every dashboard,
    once each and in pool order; the pools and [last_action] stay as they
    were. *)
Theorem telemetry_stored_and_broadcast (payload : SensorPayload.t) (env : Env)
    (st : State) :
  commit env = None →
  (∀ c, c ∈ active_dashboard_connections (manager st) → wire env c = None) →
  let '(st', tr, reply) := store_sensor_data payload env st in
  db st' = add_sensor (sensor_row payload env st) (db st)
  ∧ last_sensor_data st'
    = dict_update (last_sensor_data st) (snapshot payload env st)
  ∧ last_action st' = last_action st
  ∧ manager st' = manager st
  ∧ tr = map (λ c, Sent c (last_sensor_data st'))
             (active_dashboard_connections (manager st))
  ∧ reply = OK (list_to_map
                  [("message", JStr "Sensor data stored successfully");
                   ("id", JInt (next_id SensorData.id (sensor_data (db st))));
                   ("sample_id", JInt (SensorPayload.sample_id payload))]).
Proof.
  intros Hcommit Hlive. unfold store_sensor_data. rewrite Hcommit.
  cbv zeta. cbn [manager set_last_sensor_data set_db last_sensor_data].
  rewrite broadcast_all_live by done. by destruct st as [? ? [] ?].
Qed.

Lemma telemetry_stored_and_broadcast_witness :
  let '(st', tr, reply) :=
    store_sensor_data (sample_payload 2 5%float) (sample_env [] None)
                      (with_pools [1; 2] [7] after_one_snapshot) in
  db st' = add_sensor (sensor_row (sample_payload 2 5%float) (sample_env [] None)
                                  (with_pools [1; 2] [7] after_one_snapshot))
                      (db (with_pools [1; 2] [7] after_one_snapshot))
  ∧ last_sensor_data st'
    = dict_update (last_sensor_data (with_pools [1; 2] [7] after_one_snapshot))
                  (snapshot (sample_payload 2 5%float) (sample_env [] None)
                            (with_pools [1; 2] [7] after_one_snapshot))
  ∧ last_action st' = last_action (with_pools [1; 2] [7] after_one_snapshot)
  ∧ manager st' = manager (with_pools [1; 2] [7] after_one_snapshot)
  ∧ tr = map (λ c, Sent c (last_sensor_data st'))
             (active_dashboard_connections
                (manager (with_pools [1; 2] [7] after_one_snapshot)))
  ∧ reply = OK (list_to_map
                  [("message", JStr "Sensor data stored successfully");
                   ("id", JInt (next_id SensorData.id
                                  (sensor_data
                                     (db (with_pools [1; 2] [7] after_one_snapshot)))));
                   ("sample_id",
                    JInt (SensorPayload.sample_id (sample_payload 2 5%float)))]).
Proof.
  apply (telemetry_stored_and_broadcast (sample_payload 2 5%float)
           (sample_env [] None) (with_pools [1; 2] [7] after_one_snapshot)).
  - reflexivity.
  - intros c _. reflexivity.
Defined.

Lemma send_action_all_live env data m :
  (∀ c, c ∈ active_robot_connections m → wire env c = None) →
  send_action_to_robot env data m
  = (m, map (λ c, Sent c data) (active_robot_connections m)).
Proof.
  intros Hlive. unfold send_action_to_robot.
  rewrite loop_all_live; rewrite ?drop_0; [done|lia|done].
Qed.

(** X9: when the body is valid, the commit succeeds and every socket is
    alive, [POST /actions/] appends one row holding the setpoints as
    sent, answers with that row, sends [motor_control] to every robot
    and then [action_update], carrying the new [last_action], to every
    dashboard, each once and in pool order. *)
Theorem command_stored_and_relayed (action : ActionPayload.t) (env : Env)
    (st : State) :
  ActionPayload.valid action = true →
  commit env = None →
  (∀ c, wire env c = None) →
  let row := api_row action env st in
  let '(st', tr, reply) := create_action action env st in
  ActionData.left_motor row = JInt (ActionPayload.left_motor action)
  ∧ ActionData.right_motor row = JInt (ActionPayload.right_motor action)
  ∧ db st' = add_action row (db st)
  ∧ last_action st' = dict_update (last_action st) (action_entry_of_row row)
  ∧ manager st' = manager st
  ∧ tr = map (λ c, Sent c (motor_control row))
             (active_robot_connections (manager st))
         ++ map (λ c, Sent c (action_update (last_action st')
                                            (time_time_notify env)))
                (active_dashboard_connections (manager st))
  ∧ reply = OK (ActionData.response row).
Proof.
  intros Hvalid Hcommit Hlive row.
  assert (Hl : clamp_int (ActionPayload.left_motor action)
               = ActionPayload.left_motor action)
    by (unfold ActionPayload.valid in Hvalid; unfold clamp_int; lia).
  assert (Hr : clamp_int (ActionPayload.right_motor action)
               = ActionPayload.right_motor action)
    by (unfold ActionPayload.valid in Hvalid; unfold clamp_int; lia).
  unfold create_action. rewrite Hvalid, Hcommit. cbv zeta. cbn [negb].
  cbn [manager set_last_action set_db last_action].
  rewrite send_action_all_live by done.
  rewrite broadcast_all_live by done.
  subst row. unfold api_row. cbn [ActionData.left_motor ActionData.right_motor].
  rewrite Hl, Hr. by destruct st as [? ? [] ?].
Qed.

Lemma command_stored_and_relayed_witness :
  let row := api_row (ActionPayload.Build 80 (-80) None) (sample_env [] None)
                     (with_pools [1; 2] [7] (boot empty_database)) in
  let '(st', tr, reply) :=
    create_action (ActionPayload.Build 80 (-80) None) (sample_env [] None)
                  (with_pools [1; 2] [7] (boot empty_database)) in
  ActionData.left_motor row
  = JInt (ActionPayload.left_motor (ActionPayload.Build 80 (-80) None))
  ∧ ActionData.right_motor row
    = JInt (ActionPayload.right_motor (ActionPayload.Build 80 (-80) None))
  ∧ db st' = add_action row (db (with_pools [1; 2] [7] (boot empty_database)))
  ∧ last_action st'
    = dict_update (last_action (with_pools [1; 2] [7] (boot empty_database)))
                  (action_entry_of_row row)
  ∧ manager st' = manager (with_pools [1; 2] [7] (boot empty_database))
  ∧ tr = map (λ c, Sent c (motor_control row))
             (active_robot_connections
                (manager (with_pools [1; 2] [7] (boot empty_database))))
         ++ map (λ c, Sent c (action_update (last_action st')
                                (time_time_notify (sample_env [] None))))
                (active_dashboard_connections
                   (manager (with_pools [1; 2] [7] (boot empty_database))))
  ∧ reply = OK (ActionData.response row).
Proof.
  apply (command_stored_and_relayed (ActionPayload.Build 80 (-80) None)
           (sample_env [] None) (with_pools [1; 2] [7] (boot empty_database))).
  - reflexivity.
  - reflexivity.
  - intros c. reflexivity.
Defined.

Lemma create_action_stored action env st :
  ActionPayload.valid action = true → commit env = None →
  last_action (create_action action env st).1.1 !! "id"
  = Some (JInt (ActionData.id (api_row action env st)))
  ∧ action_data (db (create_action action env st).1.1)
    = action_data (db st) ++ [api_row action env st].
Proof.
  intros Hvalid Hcommit.
  pose proof (create_action_core action env st) as Hcore.
  rewrite Hvalid, Hcommit in Hcore. unfold core in Hcore.
  injection Hcore as _ Ha Hd. rewrite Ha, Hd. split; [|done].
  by apply dict_update_lookup_new.
Qed.

Lemma robot_receive_stored ws a l r env st :
  read_action a = inr (Some (l, r)) → commit env = None →
  last_action (robot_receive ws (Json a) env st).1.1 !! "id"
  = Some (JInt (ActionData.id (websocket_row l r env st)))
  ∧ action_data (db (robot_receive ws (Json a) env st).1.1)
    = action_data (db st) ++ [websocket_row l r env st].
Proof.
  intros Hread Hcommit.
  pose proof (robot_receive_core ws (Json a) env st) as Hcore.
  rewrite on_text_core, Hread, store_action_core, Hcommit in Hcore.
  unfold core in Hcore. injection Hcore as _ Ha Hd. rewrite Ha, Hd.
  split; [|done]. by apply dict_update_lookup_new.
Qed.

(** X10: a command taken in by [POST /actions/] can be read back: right
    after it, [GET /actions/{id}] with the id of the reply and [GET
    /actions/latest] both answer with the row that was stored, and the
    latter leaves the state as it is. *)
Theorem posted_command_reads_back (action : ActionPayload.t) (env : Env)
    (st : State) :
  ActionPayload.valid action = true →
  commit env = None →
  let st' := (create_action action env st).1.1 in
  let row := api_row action env st in
  get_action_by_id (ActionData.id row) st' = OK (ActionData.response row)
  ∧ get_latest_action st' = (st', OK (ActionData.response row)).
Proof.
  intros Hvalid Hcommit st' row.
  destruct (create_action_stored action env st Hvalid Hcommit) as [Hid Hrows].
  fold st' row in Hid, Hrows.
  assert (Hfind : action_by_id (ActionData.id row) (action_data (db st'))
                  = Some row).
  { rewrite Hrows. by apply action_by_id_fresh. }
  assert (Hok : action_response row = OK (ActionData.response row))
    by by eapply action_response_integers.
  split.
  - unfold get_action_by_id. by rewrite Hfind.
  - rewrite <- Hok.
    apply (get_latest_action_cached st' (ActionData.id row)); [done| |done].
    pose proof (next_id_pos ActionData.id (action_data (db st))).
    subst row. unfold api_row. cbn [ActionData.id]. lia.
Qed.

Lemma posted_command_reads_back_witness :
  get_action_by_id
    (ActionData.id (api_row (ActionPayload.Build 80 (-80) None)
                            (sample_env [] None) after_command))
    (create_action (ActionPayload.Build 80 (-80) None) (sample_env [] None)
                   after_command).1.1
  = OK (ActionData.response
          (api_row (ActionPayload.Build 80 (-80) None) (sample_env [] None)
                   after_command)).
Proof.
  apply (posted_command_reads_back (ActionPayload.Build 80 (-80) None)
           (sample_env [] None) after_command).
  - reflexivity.
  - reflexivity.
Defined.

(** X11: a command with integer setpoints taken in on the robot socket
    is stored with the source [websocket] and setpoints within [[-100,
    100]], and [GET /actions/{id}] and [GET /actions/latest] right after
    it answer with that row, whatever became of the sends. *)
Theorem robot_command_reads_back (ws : WebSocket) (frame : json)
    (left_motor right_motor : Z) (env : Env) (st : State) :
  read_action frame = inr (Some (JInt left_motor, JInt right_motor)) →
  commit env = None →
  let st' := (robot_receive ws (Json frame) env st).1.1 in
  let row := websocket_row (JInt left_motor) (JInt right_motor) env st in
  ActionData.source row = "websocket"
  ∧ (-100 ≤ left_motor ≤ 100)%Z ∧ (-100 ≤ right_motor ≤ 100)%Z
  ∧ get_action_by_id (ActionData.id row) st' = OK (ActionData.response row)
  ∧ get_latest_action st' = (st', OK (ActionData.response row)).
Proof.
  intros Hread Hcommit st' row.
  destruct (robot_receive_stored ws frame (JInt left_motor) (JInt right_motor)
              env st Hread Hcommit) as [Hid Hrows].
  fold st' row in Hid, Hrows.
  assert (Hfind : action_by_id (ActionData.id row) (action_data (db st'))
                  = Some row).
  { rewrite Hrows. by apply action_by_id_fresh. }
  assert (Hok : action_response row = OK (ActionData.response row))
    by by eapply action_response_integers.
  destruct (read_action_setpoints _ _ _ Hread) as [Hl Hr].
  split; [done|]. split; [exact Hl|]. split; [exact Hr|]. split.
  - unfold get_action_by_id. by rewrite Hfind.
  - rewrite <- Hok.
    apply (get_latest_action_cached st' (ActionData.id row)); [done| |done].
    pose proof (next_id_pos ActionData.id (action_data (db st))).
    subst row. unfold websocket_row. cbn [ActionData.id]. lia.
Qed.

Lemma robot_command_reads_back_witness :
  get_latest_action
    (robot_receive 7 (Json (motor_command (JInt 200) (JInt (-200))))
                   (sample_env [7] None) after_command).1.1
  = ((robot_receive 7 (Json (motor_command (JInt 200) (JInt (-200))))
                    (sample_env [7] None) after_command).1.1,
     OK (ActionData.response
           (websocket_row (JInt 100) (JInt (-100)) (sample_env [7] None)
                          after_command))).
Proof.
  apply (robot_command_reads_back 7 (motor_command (JInt 200) (JInt (-200)))
           100 (-100) (sample_env [7] None) after_command).
  - reflexivity.
  - reflexivity.
Defined.

(** ** What the store and the caches never do *)

Lemma effect_db st st' :
  effect st st' →
  ∃ sensors actions,
    sensor_data (db st') = sensor_data (db st) ++ sensors
    ∧ action_data (db st') = action_data (db st) ++ actions
    ∧ length sensors + length actions ≤ 1.
Proof.
  intros [H|payload env H|row Hrow H|row Hrow H|row Hrow H|H].
  - apply core_inv in H as (_ & _ & ->). exists [], []. rewrite !app_nil_r. split_and!; [done|done|simpl; lia].
  - unfold core in H. injection H as _ _ ->.
    exists [sensor_row payload env st], []. rewrite app_nil_r. split_and!; [done|done|simpl; lia].
  - unfold core in H. injection H as _ _ ->. exists [], []. rewrite !app_nil_r. split_and!; [done|done|simpl; lia].
  - unfold core in H. injection H as _ _ ->.
    exists [], [row]. rewrite app_nil_r. split_and!; [done|done|simpl; lia].
  - unfold core in H. injection H as _ _ ->. exists [], []. rewrite !app_nil_r. split_and!; [done|done|simpl; lia].
  - subst st'. pose proof (boot_core (db st)) as H. unfold core in H.
    injection H as _ _ ->. exists [], []. rewrite !app_nil_r. split_and!; [done|done|simpl; lia].
Qed.

(** X12: the database is append-only: whatever the request, every row
    stored before it is still there afterwards, in the same place and
    unchanged, and at most one row has been added. *)
Theorem store_is_append_only (rq : request) (env : Env) (st : State) :
  ∃ sensors actions,
    sensor_data (db (handle rq env st)) = sensor_data (db st) ++ sensors
    ∧ action_data (db (handle rq env st)) = action_data (db st) ++ actions
    ∧ length sensors + length actions ≤ 1.
Proof. apply effect_db, handle_effect. Qed.

(** An action row enters the table with the next id. *)
Lemma handle_actions rq env st :
  action_data (db (handle rq env st)) = action_data (db st)
  ∨ ∃ row, ActionData.id row = next_id ActionData.id (action_data (db st))
           ∧ action_data (db (handle rq env st)) = action_data (db st) ++ [row].
Proof.
  destruct rq as [payload| |action| |ws|ws|ws|ws data|ws|]; simpl.
  - pose proof (store_sensor_data_core payload env st) as H.
    destruct (commit env); unfold core in H; injection H as _ _ ->; by left.
  - pose proof (get_latest_sensor_data_core st) as H.
    destruct (dict_truthy _); [|destruct (latest _ _)];
      unfold core in H; injection H as _ _ ->; by left.
  - pose proof (create_action_core action env st) as H.
    destruct (ActionPayload.valid action); [destruct (commit env)|];
      unfold core in H; injection H as _ _ ->; [by left| |by left].
    right. by exists (api_row action env st).
  - destruct (get_latest_action_core st) as [H|(r & _ & H)];
      unfold core in H; injection H as _ _ ->; by left.
  - pose proof (dashboard_websocket_core ws env st) as H.
    unfold core in H. injection H as _ _ ->. by left.
  - by left.
  - by left.
  - pose proof (robot_receive_core ws data env st) as H.
    rewrite on_text_core in H.
    destruct data as [|a|e];
      [unfold core in H; injection H as _ _ ->; by left|
      |unfold core in H; injection H as _ _ ->; by left].
    destruct (read_action a) as [e|[[l r]|]];
      try (unfold core in H; injection H as _ _ ->; by left).
    rewrite store_action_core in H.
    destruct (commit env); unfold core in H; injection H as _ _ ->; [by left|].
    right. by exists (websocket_row l r env st).
  - by left.
  - pose proof (boot_core (db st)) as H. unfold core in H.
    injection H as _ _ ->. by left.
Qed.

Lemma reachable_ids st :
  reachable st → NoDup (map ActionData.id (action_data (db st))).
Proof.
  induction 1 as [|rq env st _ IH].
  - vm_compute. constructor.
  - destruct (handle_actions rq env st) as [->|(row & Hid & ->)]; [done|].
    rewrite map_app. apply NoDup_app. split_and!; [done| |apply NoDup_singleton].
    intros i Hi Hrow. simpl in Hrow. apply list_elem_of_singleton in Hrow.
    apply list_elem_of_fmap in Hi as (r & Hr & Hin).
    pose proof (next_id_gt ActionData.id _ r Hin). lia.
Qed.

(** X13: on a running server every stored command with integer
    setpoints can be fetched by its id: ids are never given twice, so
    [GET /actions/{id}] answers with exactly the row that carries the
    id. *)
Theorem stored_command_found_by_id (st : State) (r : ActionData.t)
    (left_motor right_motor : Z) :
  reachable st →
  r ∈ action_data (db st) →
  ActionData.left_motor r = JInt left_motor →
  ActionData.right_motor r = JInt right_motor →
  get_action_by_id (ActionData.id r) st = OK (ActionData.response r).
Proof.
  intros Hst Hr Hl Hrr. unfold get_action_by_id.
  rewrite action_by_id_stored by by (apply reachable_ids || done).
  by eapply action_response_integers.
Qed.

Lemma stored_command_found_by_id_witness :
  get_action_by_id
    (ActionData.id (api_row (ActionPayload.Build 80 (-80) (Some "manual"))
                            (sample_env [] None) (boot empty_database)))
    after_two_commands
  = OK (ActionData.response
          (api_row (ActionPayload.Build 80 (-80) (Some "manual"))
                   (sample_env [] None) (boot empty_database))).
Proof.
  apply (stored_command_found_by_id after_two_commands _ 80 (-80)).
  - apply reachable_handle, reachable_handle, reachable_boot.
  - vm_compute. left.
  - reflexivity.
  - reflexivity.
Defined.

(** X14: [GET /actions/{id}] with an id that fits 64 bits and that no
    stored row carries answers 404, naming the id. *)
Theorem unknown_id_not_found (action_id : Z) (st : State) :
  int64 action_id →
  (∀ r, r ∈ action_data (db st) → ActionData.id r ≠ action_id) →
  get_action_by_id action_id st
  = HTTPException 404 ("Action with ID " +:+ pretty action_id +:+ " not found").
Proof.
  intros _ Hrows. unfold get_action_by_id. by rewrite action_by_id_unknown.
Qed.

Lemma unknown_id_not_found_witness :
  get_action_by_id 42 after_two_commands
  = HTTPException 404 "Action with ID 42 not found".
Proof.
  apply (unknown_id_not_found 42 after_two_commands).
  - unfold int64. lia.
  - intros r Hr.
    apply elem_of_cons in Hr as [->|Hr]; [discriminate|].
    apply list_elem_of_singleton in Hr as ->. discriminate.
Defined.

(** X15: on a running server that has never stored a command, [GET
    /actions/latest] answers 404 and changes nothing. *)
Theorem no_command_no_latest (st : State) :
  reachable st →
  action_data (db st) = [] →
  get_latest_action st = (st, HTTPException 404 "No actions available").
Proof.
  intros Hst Hnil.
  destruct (reachable_consistent st Hst) as [_ _ _ Hdef _].
  unfold get_latest_action. rewrite (Hdef Hnil), Hnil. reflexivity.
Qed.

Lemma no_command_no_latest_witness :
  get_latest_action after_one_snapshot
  = (after_one_snapshot, HTTPException 404 "No actions available").
Proof.
  apply no_command_no_latest.
  - apply reachable_handle, reachable_boot.
  - reflexivity.
Defined.

(** X16: as soon as the action table holds a row, [GET /actions/latest]
    no longer answers 404: it answers with a stored row, its motors as
    the integers the response model reads them as, or with 500 when a
    motor of that row is not an integer. *)
Theorem some_command_some_latest (st : State) :
  action_data (db st) ≠ [] →
  ∃ r, r ∈ action_data (db st)
       ∧ match integer_field (ActionData.left_motor r),
               integer_field (ActionData.right_motor r) with
         | Some left_motor, Some right_motor =>
             (get_latest_action st).2
             = OK (list_to_map
                     [("id", JInt (ActionData.id r));
                      ("left_motor", JInt left_motor);
                      ("right_motor", JInt right_motor);
                      ("timestamp", JFloat (ActionData.timestamp r));
                      ("source", JStr (ActionData.source r));
                      ("created_at",
                       JStr (isoformat (ActionData.created_at r)))])
         | _, _ => (get_latest_action st).2 = InternalServerError
         end.
Proof.
  intros Hne.
  assert (H : ∃ r, r ∈ action_data (db st)
                   ∧ (get_latest_action st).2 = action_response r).
  { unfold get_latest_action.
    match goal with
    | |- context [match ?c with Some a => _ | None => _ end] =>
        destruct c as [r|] eqn:Hc
    end.
    - exists r. split; [|done].
      destruct (last_action st !! "id") as [[]|]; try done.
      destruct (py_truthy _); [|done].
      by apply action_by_id_elem in Hc as [? _].
    - destruct (latest _ _) as [r|] eqn:Hr.
      + exists r. split; [by eapply latest_elem|done].
      + by apply latest_None in Hr. }
  destruct H as (r & Hr & ->). exists r. split; [done|].
  unfold action_response.
  by destruct (integer_field (ActionData.left_motor r)),
              (integer_field (ActionData.right_motor r)).
Qed.

Lemma some_command_some_latest_witness :
  ∃ r, r ∈ action_data (db after_fraction)
       ∧ match integer_field (ActionData.left_motor r),
               integer_field (ActionData.right_motor r) with
         | Some left_motor, Some right_motor =>
             (get_latest_action after_fraction).2
             = OK (list_to_map
                     [("id", JInt (ActionData.id r));
                      ("left_motor", JInt left_motor);
                      ("right_motor", JInt right_motor);
                      ("timestamp", JFloat (ActionData.timestamp r));
                      ("source", JStr (ActionData.source r));
                      ("created_at",
                       JStr (isoformat (ActionData.created_at r)))])
         | _, _ => (get_latest_action after_fraction).2 = InternalServerError
         end.
Proof. apply some_command_some_latest. vm_compute. discriminate. Defined.

(** ** The telemetry cache *)

Lemma effect_sensor_backed st st' :
  effect st st' →
  (sensor_data (db st) = [] → last_sensor_data st = ∅) →
  sensor_data (db st') = [] → last_sensor_data st' = ∅.
Proof.
  intros [H|payload env H|row Hrow H|row Hrow H|row Hrow H|H] Hback.
  - apply core_inv in H as (-> & _ & ->). done.
  - unfold core in H. injection H as _ _ ->. simpl.
    by intros [_ ?]%app_eq_nil.
  - unfold core in H. injection H as _ _ ->. intros Hnil.
    rewrite Hnil in Hrow. by apply elem_of_nil in Hrow.
  - unfold core in H. injection H as -> _ ->. done.
  - unfold core in H. injection H as -> _ ->. done.
  - subst st'. pose proof (boot_core (db st)) as H. unfold core in H.
    injection H as -> _ ->. by intros ->.
Qed.

Lemma reachable_sensor_backed st :
  reachable st → sensor_data (db st) = [] → last_sensor_data st = ∅.
Proof.
  induction 1 as [|rq env st _ IH]; [done|].
  eapply effect_sensor_backed; [apply handle_effect|done].
Qed.

Lemma dict_truthy_empty : dict_truthy ∅ = false.
Proof. unfold dict_truthy. by rewrite map_size_empty. Qed.

Lemma sensor_entry_keys a b c d e f :
  dom (sensor_entry a b c d e f) = sensor_keys.
Proof.
  unfold sensor_entry, sensor_keys. simpl.
  rewrite !dom_insert_L, dom_empty_L. set_solver.
Qed.

(** X17: on a running server that has never stored a snapshot, [GET
    /sensors/latest] answers 404 and changes nothing, and a dashboard
    that connects is registered at the end of its pool without being
    sent anything. *)
Theorem no_snapshot_no_data (ws : WebSocket) (env : Env) (st : State) :
  reachable st →
  sensor_data (db st) = [] →
  get_latest_sensor_data st
  = (st, HTTPException 404 "No sensor data available")
  ∧ dashboard_websocket ws env st
    = (set_manager (connect_dashboard ws (manager st)) st, []).
Proof.
  intros Hst Hnil.
  pose proof (reachable_sensor_backed st Hst Hnil) as Hempty. split.
  - unfold get_latest_sensor_data. rewrite Hempty, Hnil, dict_truthy_empty.
    cbn [latest foldl]. by rewrite Hempty, dict_truthy_empty.
  - unfold dashboard_websocket. cbv zeta. cbn [last_sensor_data set_manager].
    by rewrite Hempty, dict_truthy_empty.
Qed.

Lemma no_snapshot_no_data_witness :
  get_latest_sensor_data after_command
  = (after_command, HTTPException 404 "No sensor data available")
  ∧ dashboard_websocket 1 (sample_env [] None) after_command
    = (set_manager (connect_dashboard 1 (manager after_command)) after_command,
       []).
Proof.
  apply no_snapshot_no_data.
  - apply reachable_handle, reachable_boot.
  - reflexivity.
Defined.

(** X18: on a running server the body of a successful [GET
    /sensors/latest] has exactly the six keys of a snapshot; in
    particular it has no [gyro_sensor] entry, which the client script
    indexes. *)
Theorem latest_snapshot_keys (st : State) (body : pydict) :
  reachable st →
  (get_latest_sensor_data st).2 = OK body →
  dom body = sensor_keys
  ∧ py_getitem (JObj body) "gyro_sensor"
    = raise (Raise OtherException "'gyro_sensor'").
Proof.
  intros Hst Hbody.
  assert (Hdom : dom body = sensor_keys).
  { destruct (reachable_consistent _
                (reachable_handle GET_sensors_latest (sample_env [] None) st Hst))
      as [Hshape _ _ _ _].
    change (handle GET_sensors_latest (sample_env [] None) st)
      with (get_latest_sensor_data st).1 in Hshape.
    unfold get_latest_sensor_data in Hbody, Hshape.
    match type of Hbody with
    | context [dict_truthy (last_sensor_data ?s)] =>
        destruct (dict_truthy (last_sensor_data s)) eqn:Ht; [|done]
    end.
    injection Hbody as <-. simpl in Hshape.
    destruct Hshape as [Hempty|(a & b & c & d & e & f & Hentry)].
    - by rewrite Hempty, dict_truthy_empty in Ht.
    - rewrite Hentry. apply sensor_entry_keys. }
  split; [done|].
  unfold py_getitem.
  assert (Hnone : body !! "gyro_sensor" = None).
  { apply not_elem_of_dom. rewrite Hdom. unfold sensor_keys.
    apply (bool_decide_unpack _). vm_compute. exact I. }
  by rewrite Hnone.
Qed.

Lemma latest_snapshot_keys_witness :
  dom (last_sensor_data after_one_snapshot) = sensor_keys
  ∧ py_getitem (JObj (last_sensor_data after_one_snapshot)) "gyro_sensor"
    = raise (Raise OtherException "'gyro_sensor'").
Proof.
  apply (latest_snapshot_keys after_one_snapshot).
  - apply reachable_handle, reachable_boot.
  - reflexivity.
Defined.


(** ** The robot socket *)

Lemma robot_receive_error ws a env st :
  wire env ws = None →
  (∀ l r, read_action a ≠ inr (Some (l, r))) →
  ∃ message,
    robot_receive ws (Json a) env st
    = (st, [Sent ws (error_payload message)], Continue)
    ∧ message = match read_action a with
                | inl e => str e
                | inr _ => "Invalid action format"
                end.
Proof.
  intros Hlive Hno. unfold robot_receive, on_text.
  destruct (read_action a) as [e|[[l r]|]].
  - exists (str e). cbv beta iota zeta. by rewrite send_json_live.
  - by destruct (Hno l r).
  - exists "Invalid action format". by rewrite send_json_live.
Qed.

(** X20: a JSON object that lacks [left_motor] or [right_motor] is
    answered with [{"error": "Invalid action format"}]; when that reply
    goes out, nothing is stored or cached, the pools are as before and
    the loop goes on. *)
Theorem missing_motor_answered (ws : WebSocket) (m : pydict) (env : Env)
    (st : State) :
  m !! "left_motor" = None ∨ m !! "right_motor" = None →
  wire env ws = None →
  robot_receive ws (Json (JObj m)) env st
  = (st, [Sent ws {[ "error" := JStr "Invalid action format" ]}], Continue).
Proof.
  intros Hmissing Hlive.
  assert (Hread : read_action (JObj m) = inr None).
  { unfold read_action, py_contains. cbn [bind ret].
    destruct (m !! "left_motor") as [l|] eqn:Hl.
    - destruct Hmissing as [|Hr]; [done|]. rewrite Hr.
      rewrite bool_decide_true by eauto.
      rewrite bool_decide_false by (by intros [? ?]). reflexivity.
    - rewrite bool_decide_false by (by intros [? ?]). reflexivity. }
  unfold robot_receive, on_text. rewrite Hread.
  by rewrite send_json_live.
Qed.

Lemma missing_motor_answered_witness :
  robot_receive 7 (Json (JObj {[ "left_motor" := JInt 5 ]})) (sample_env [] None)
                after_command
  = (after_command, [Sent 7 {[ "error" := JStr "Invalid action format" ]}],
     Continue).
Proof.
  apply missing_motor_answered.
  - right. reflexivity.
  - reflexivity.
Defined.

Lemma read_action_needs_object v l r :
  read_action v = inr (Some (l, r)) → ∃ m, v = JObj m.
Proof.
  destruct v as [|b|z|f|s|xs|m]; try done; [| |by eexists].
  - unfold read_action, py_contains, py_getitem. cbn [bind ret raise].
    by repeat (case_bool_decide; cbn [negb bind ret raise]).
  - unfold read_action, py_contains, py_getitem. cbn [bind ret raise].
    by repeat (destruct (existsb _ _); cbn [negb bind ret raise]).
Qed.

(** X21: only a JSON object is ever taken in as a command: any other
    document (a number, a string, a list, even one that mentions both
    motor names) is answered with an error payload, and when that reply
    goes out the state is as before and the loop goes on. *)
Theorem only_objects_are_commands (ws : WebSocket) (v : json) (env : Env)
    (st : State) :
  (∀ m, v ≠ JObj m) →
  wire env ws = None →
  ∃ message,
    robot_receive ws (Json v) env st
    = (st, [Sent ws {[ "error" := JStr message ]}], Continue).
Proof.
  intros Hv Hlive.
  destruct (robot_receive_error ws v env st Hlive) as (message & H & _).
  - intros l r Hread. apply read_action_needs_object in Hread as [m ->].
    by apply (Hv m).
  - by exists message.
Qed.

Lemma only_objects_are_commands_witness :
  ∃ message,
    robot_receive 7 (Json (JList [JStr "left_motor"; JStr "right_motor"]))
                  (sample_env [] None) after_command
    = (after_command, [Sent 7 {[ "error" := JStr message ]}], Continue).
Proof.
  apply only_objects_are_commands.
  - intros m. discriminate.
  - reflexivity.
Defined.

(** X22: when the command is stored but the acknowledgement cannot be
    sent, the row stays in the table and in [last_action], no dashboard
    is told, the dashboards pool is as before, and the handler ends:
    with [WebSocketDisconnect] the socket is unregistered, with any
    other exception it stays in the robots pool. *)
Theorem unacknowledged_command_is_kept (ws : WebSocket) (frame : json)
    (left_motor right_motor : json) (env : Env) (st : State) (e : exn) :
  read_action frame = inr (Some (left_motor, right_motor)) →
  commit env = None →
  wire env ws = Some e →
  let '(st', tr, o) := robot_receive ws (Json frame) env st in
  let row := websocket_row left_motor right_motor env st in
  db st' = add_action row (db st)
  ∧ last_action st' = dict_update (last_action st) (action_entry_of_row row)
  ∧ Forall (λ ev, target ev = ws) tr
  ∧ recipients tr = []
  ∧ active_dashboard_connections (manager st')
    = active_dashboard_connections (manager st)
  ∧ (if is_WebSocketDisconnect e
     then o = Closed ∧ manager st' = disconnect_robot ws (manager st)
     else o = Escaped e ∧ manager st' = manager st).
Proof.
  intros Hread Hcommit Hdead.
  unfold robot_receive, on_text. rewrite Hread. cbv beta iota zeta.
  unfold store_action. rewrite Hcommit. cbv beta iota zeta.
  unfold send_json. rewrite Hdead. cbv beta iota zeta delta [completion_of].
  destruct (is_WebSocketDisconnect e); cbn [db last_action manager set_manager
    set_last_action set_db]; split_and!; try done; try (by repeat constructor).
  apply disconnect_dashboard_robots || (unfold disconnect_robot;
    by case_bool_decide).
Qed.

Lemma unacknowledged_command_is_kept_witness :
  let '(st', tr, o) :=
    robot_receive 7 (Json (motor_command (JInt 30) (JInt 40)))
                  (hangup_env [7]) (with_pools [1; 2] [7] after_command) in
  let row := websocket_row (JInt 30) (JInt 40) (hangup_env [7])
                           (with_pools [1; 2] [7] after_command) in
  db st' = add_action row (db (with_pools [1; 2] [7] after_command))
  ∧ last_action st'
    = dict_update (last_action (with_pools [1; 2] [7] after_command))
                  (action_entry_of_row row)
  ∧ Forall (λ ev, target ev = 7) tr
  ∧ recipients tr = []
  ∧ active_dashboard_connections (manager st')
    = active_dashboard_connections (manager (with_pools [1; 2] [7] after_command))
  ∧ (if is_WebSocketDisconnect (Raise WebSocketDisconnect "")
     then o = Closed
          ∧ manager st'
            = disconnect_robot 7 (manager (with_pools [1; 2] [7] after_command))
     else o = Escaped (Raise WebSocketDisconnect "")
          ∧ manager st' = manager (with_pools [1; 2] [7] after_command)).
Proof.
  apply (unacknowledged_command_is_kept 7 (motor_command (JInt 30) (JInt 40))
           (JInt 30) (JInt 40) (hangup_env [7])
           (with_pools [1; 2] [7] after_command) (Raise WebSocketDisconnect "")).
  - reflexivity.
  - reflexivity.
  - reflexivity.
Defined.

(** X23: when the reply to a frame that is not JSON cannot be sent, nothing
    is stored or cached; with [WebSocketDisconnect] the socket leaves
    the robots pool and the loop ends, with any other exception the
    exception leaves the handler and the socket stays registered. *)
Theorem unanswered_frame_ends_the_loop (ws : WebSocket) (env : Env)
    (st : State) (e : exn) :
  wire env ws = Some e →
  robot_receive ws Malformed env st
  = if is_WebSocketDisconnect e
    then (set_manager (disconnect_robot ws (manager st)) st,
          [SendFailed ws (error_payload "Invalid JSON")], Closed)
    else (st, [SendFailed ws (error_payload "Invalid JSON")], Escaped e).
Proof.
  intros Hdead. unfold robot_receive, on_text, send_json. rewrite Hdead.
  cbv beta iota zeta delta [completion_of]. by destruct (is_WebSocketDisconnect e).
Qed.

Lemma unanswered_frame_ends_the_loop_witness :
  robot_receive 7 Malformed (sample_env [7] None)
                (with_pools [1; 2] [7] after_command)
  = (with_pools [1; 2] [7] after_command,
     [SendFailed 7 (error_payload "Invalid JSON")], Escaped socket_closed).
Proof.
  apply (unanswered_frame_ends_the_loop 7 (sample_env [7] None)
           (with_pools [1; 2] [7] after_command) socket_closed).
  reflexivity.
Defined.

(** ** Clamping *)

Lemma setpoint_fixed x : setpoint x → clamp_value x = inr x.
Proof.
  destruct x as [|b|z|f| | |]; try done; simpl.
  - intros _. by destruct b.
  - intros Hz. rewrite clamp_value_int. unfold clamp_int. do 2 f_equal. lia.
  - intros [Hlo Hhi].
    unfold clamp_value, py_min, py_max, py_lt, py_gt. cbn [bind ret].
    change (float_of_Z 100) with 100%float. rewrite Hhi. cbn [bind ret].
    change (float_of_Z (-100)) with (-100)%float. by rewrite Hlo.
Qed.

(** X24: [max(-100, min(100, v))] on a received value: on a number it
    returns a number within [[-100, 100]], on anything else it raises
    [TypeError]; on an [int] it returns what the clamp of [POST
    /actions/] returns; and clamping what it returned changes nothing. *)
Theorem clamp_value_behaviour (v : json) :
  (if numeric v
   then ∃ x, clamp_value v = inr x ∧ setpoint x ∧ clamp_value x = inr x
   else ∃ e, clamp_value v = inl e ∧ exn_type e = TypeError)
  ∧ match v with
    | JInt z => clamp_value v = inr (JInt (clamp_int z))
    | _ => True
    end.
Proof.
  split.
  - destruct (numeric v) eqn:Hn.
    + destruct (clamp_value_numeric v Hn) as (x & Hx & Hs).
      exists x. split_and!; try done. by apply setpoint_fixed.
    + by apply clamp_value_not_numeric.
  - destruct v; try done. apply clamp_value_int.
Qed.

(** ** Startup and the reads on a running server *)

Lemma boot_last_action d :
  db (boot d) = d
  ∧ match latest ActionData.timestamp (action_data d) with
    | Some r => r ∈ action_data d
                ∧ last_action (boot d) !! "id" = Some (JInt (ActionData.id r))
                ∧ last_action (boot d) !! "left_motor"
                  = Some (ActionData.left_motor r)
                ∧ last_action (boot d) !! "right_motor"
                  = Some (ActionData.right_motor r)
    | None => action_data d = [] ∧ last_action (boot d) = initial_last_action
    end.
Proof.
  pose proof (boot_core d) as Hcore. unfold core in Hcore.
  injection Hcore as _ Ha Hd. rewrite Ha, Hd. split; [done|].
  destruct (latest ActionData.timestamp _) as [r|] eqn:Hr.
  - split_and!; [by eapply latest_elem|..]; by apply dict_update_lookup_new.
  - split; [by eapply latest_None|done].
Qed.

(** X25: a process started over a database file keeps the file as it is
    and starts with both pools empty. A cache whose table is empty is
    left as the module body defines it. A cache whose table has rows is
    seeded from a stored row whose timestamp no other row of the table
    exceeds (a row without a timestamp counting as lowest):
    [last_sensor_data] carries its id, sample id, readings and creation
    time, [last_action] its id, source and creation time, and its
    setpoints where the row holds integers. *)
Theorem boot_seeds_from_store (d : Database) :
  db (boot d) = d
  ∧ manager (boot d) = {| active_dashboard_connections := [];
                          active_robot_connections := [] |}
  ∧ match sensor_data d with
    | [] => last_sensor_data (boot d) = ∅
    | _ :: _ =>
        ∃ r, r ∈ sensor_data d
             ∧ Forall (λ x, sql_le (SensorData.timestamp x)
                                   (SensorData.timestamp r) = true)
                      (sensor_data d)
             ∧ last_sensor_data (boot d) !! "db_id"
               = Some (JInt (SensorData.id r))
             ∧ last_sensor_data (boot d) !! "sample_id"
               = Some (JInt (SensorData.sample_id r))
             ∧ last_sensor_data (boot d) !! "ir_sensor"
               = Some (JObj (SensorData.ir_sensor r))
             ∧ last_sensor_data (boot d) !! "robot_info"
               = Some (JObj (SensorData.robot_info r))
             ∧ last_sensor_data (boot d) !! "created_at"
               = Some (JStr (isoformat (SensorData.created_at r)))
    end
  ∧ match action_data d with
    | [] => last_action (boot d)
            = list_to_map [("left_motor", JInt 0); ("right_motor", JInt 0);
                           ("timestamp", JNull); ("source", JNull)]
    | _ :: _ =>
        ∃ r, r ∈ action_data d
             ∧ Forall (λ x, sql_le (ActionData.timestamp x)
                                   (ActionData.timestamp r) = true)
                      (action_data d)
             ∧ last_action (boot d) !! "id" = Some (JInt (ActionData.id r))
             ∧ last_action (boot d) !! "source"
               = Some (JStr (ActionData.source r))
             ∧ last_action (boot d) !! "created_at"
               = Some (JStr (isoformat (ActionData.created_at r)))
             ∧ (∀ left_motor, ActionData.left_motor r = JInt left_motor →
                  last_action (boot d) !! "left_motor" = Some (JInt left_motor))
             ∧ (∀ right_motor, ActionData.right_motor r = JInt right_motor →
                  last_action (boot d) !! "right_motor"
                  = Some (JInt right_motor))
    end.
Proof.
  pose proof (boot_core d) as Hcore. unfold core in Hcore.
  injection Hcore as Hs Ha Hd. split_and!; [done| | |].
  - unfold boot, startup_event.
    by destruct (latest SensorData.timestamp _), (latest ActionData.timestamp _).
  - rewrite Hs.
    destruct (latest SensorData.timestamp (sensor_data d)) as [r|] eqn:Hr.
    + pose proof (latest_elem _ _ _ Hr) as Helem.
      pose proof (latest_greatest _ _ _ Hr) as Hgreatest.
      destruct (sensor_data d) as [|x rows]; [by apply elem_of_nil in Helem|].
      exists r. split_and!; [done|done|..]; by apply dict_update_lookup_new.
    + by rewrite (latest_None _ _ Hr).
  - rewrite Ha.
    destruct (latest ActionData.timestamp (action_data d)) as [r|] eqn:Hr.
    + pose proof (latest_elem _ _ _ Hr) as Helem.
      pose proof (latest_greatest _ _ _ Hr) as Hgreatest.
      destruct (action_data d) as [|x rows]; [by apply elem_of_nil in Helem|].
      exists r. split_and!; [done|done|..]; try by apply dict_update_lookup_new.
      * intros l <-. by apply dict_update_lookup_new.
      * intros l <-. by apply dict_update_lookup_new.
    + by rewrite (latest_None _ _ Hr).
Qed.

Lemma boot_seeds_from_store_witness :
  last_sensor_data (boot sample_database) !! "db_id" = Some (JInt 2)
  ∧ last_action (boot sample_database) !! "id" = Some (JInt 1)
  ∧ last_action (boot sample_database) !! "left_motor" = Some (JInt 10).
Proof.
  destruct (boot_seeds_from_store sample_database)
    as (_ & _ & (r & Hr & Hgreatest & Hid & _)
        & (a & Ha & Hlatest & Haid & _ & _ & Hleft & _)).
  assert (r = SensorData.Build 2 12 3%float ∅ ∅
                (Datetime "2024-01-01T00:00:03")) as ->.
  { cbn [sample_database sensor_data] in Hr, Hgreatest.
    apply Forall_cons in Hgreatest as [_ Hgreatest].
    apply Forall_cons in Hgreatest as [H2 _].
    apply elem_of_cons in Hr as [->|Hr]; [by vm_compute in H2|].
    apply elem_of_cons in Hr as [->|Hr]; [done|].
    apply list_elem_of_singleton in Hr as ->. by vm_compute in H2. }
  assert (a = ActionData.Build 1 5%float (JInt 10) (JInt 20) "api"
                (Datetime "2024-01-01T00:00:05")) as ->.
  { cbn [sample_database action_data] in Ha, Hlatest.
    apply Forall_cons in Hlatest as [H1 _].
    apply elem_of_cons in Ha as [->|Ha]; [done|].
    apply list_elem_of_singleton in Ha as ->. by vm_compute in H1. }
  split_and!; [exact Hid|exact Haid|by apply Hleft].
Defined.

Lemma effect_cache_backed st st' :
  effect st st' → cache_backed st → cache_backed st'.
Proof.
  unfold cache_backed.
  intros [H|payload env H|row Hrow H|row Hrow H|row Hrow H|H] Hback.
  - apply core_inv in H as (_ & -> & ->). done.
  - unfold core in H. injection H as _ -> ->. done.
  - unfold core in H. injection H as _ -> ->. done.
  - unfold core in H. injection H as _ -> ->. intros _.
    exists row. split; [set_solver|by apply dict_update_lookup_new].
  - unfold core in H. injection H as _ -> ->. intros _.
    exists row. split; [done|by apply dict_update_lookup_new].
  - subst st'. destruct (boot_last_action (db st)) as (-> & Hseed).
    intros Hne. destruct (latest ActionData.timestamp _) as [r|].
    + exists r. split; by destruct Hseed as (? & ? & _).
    + by destruct Hseed.
Qed.

Lemma reachable_cache_backed st : reachable st → cache_backed st.
Proof.
  induction 1 as [|rq env st _ IH].
  - intros Hne. by vm_compute in Hne.
  - eapply effect_cache_backed; [apply handle_effect|done].
Qed.

Lemma reachable_ids_positive st :
  reachable st → Forall (λ r, (0 < ActionData.id r)%Z) (action_data (db st)).
Proof.
  induction 1 as [|rq env st _ IH].
  - vm_compute. constructor.
  - destruct (handle_actions rq env st) as [->|(row & Hid & ->)]; [done|].
    apply Forall_app. split; [done|]. constructor; [|done].
    rewrite Hid. apply next_id_pos.
Qed.

(** X26: on a running server the two [latest] reads never change the
    state: the branches that refill a cache from the database are never
    taken, because a cache is only empty while its table is. *)
Theorem latest_reads_change_nothing (st : State) :
  reachable st →
  (get_latest_sensor_data st).1 = st ∧ (get_latest_action st).1 = st.
Proof.
  intros Hst. split.
  - destruct (reachable_consistent st Hst) as [_ _ _ _ Htruthy].
    destruct (sensor_data (db st)) as [|r rows] eqn:Hrows.
    + pose proof (reachable_sensor_backed st Hst Hrows) as Hempty.
      unfold get_latest_sensor_data. rewrite Hempty, Hrows, dict_truthy_empty.
      cbn [latest foldl]. by rewrite Hempty, dict_truthy_empty.
    + by rewrite get_latest_sensor_data_cached by by apply Htruthy.
  - destruct (action_data (db st)) as [|r0 rows] eqn:Hrows.
    + destruct (reachable_consistent st Hst) as [_ _ _ Hdef _].
      unfold get_latest_action. by rewrite (Hdef Hrows), Hrows.
    + destruct (reachable_cache_backed st Hst) as (r & Hr & Hid);
        [by rewrite Hrows|].
      pose proof (reachable_ids_positive st Hst) as Hpos.
      rewrite Forall_forall in Hpos. specialize (Hpos r Hr).
      rewrite (get_latest_action_cached st (ActionData.id r) r); [done|done|lia|].
      apply action_by_id_stored; [by apply reachable_ids|done].
Qed.

Lemma latest_reads_change_nothing_witness :
  (get_latest_sensor_data after_command).1 = after_command
  ∧ (get_latest_action after_command).1 = after_command.
Proof.
  apply latest_reads_change_nothing.
  apply reachable_handle, reachable_boot.
Defined.
